(** * ReverseDict: a dict that also answers value -> key lookups

    Shallow embedding of [src/reverse_dict.py] (class [ReverseDict]) and the
    properties of its specification.

    Modelling choices, all taken from the source:
    - Python values are dynamically typed and keys and values live in the same
      universe ([__getitem__] looks a key up among the values), so there is
      one type [pyval] of hashable values, with structural equality.
    - A Python [dict] keeps insertion order, and that order is observable here
      ([list(self.keys())], [self.items()], and the order in which the lazy
      inverse is filled decides which key wins on a value collision), so a
      dict is an association list with unique keys: overwriting keeps the
      position of the key, a new key goes to the end.
    - [self._keys] and [self._values] are list objects mutated in place, and
      [self._inverse_items] is a [zip] iterator over those very objects; it is
      modelled as a cursor into the lists of the current state, so that it
      sees every append and delete made before it is consumed.
    - A raised exception does not undo a mutation, so every operation that may
      both mutate and raise returns the new state together with its result. *)

From Stdlib Require Import String ZArith Bool Lia PeanoNat List.
Import ListNotations.
Open Scope string_scope.
Open Scope Z_scope.
Open Scope nat_scope.
Open Scope list_scope.

(** ** Python values and exceptions *)

Inductive pyval : Type :=
| PInt (z : Z)
| PStr (s : string).

Definition pyval_eq_dec (x y : pyval) : {x = y} + {x <> y}.
Proof.
  decide equality; [apply Z.eq_dec | apply string_dec].
Defined.

Definition pyval_eqb (x y : pyval) : bool :=
  if pyval_eq_dec x y then true else false.

Inductive exn : Type :=
| KeyError (key : pyval)
| ValueError (x : pyval)
| IndexError.

Inductive result (A : Type) : Type :=
| Ok (a : A)
| Raise (e : exn).
Arguments Ok {A} a.
Arguments Raise {A} e.

(** ** Python lists: [x in l], [l.index(x)], [del l[i]] *)

Fixpoint list_contains (x : pyval) (l : list pyval) : bool :=
  match l with
  | [] => false
  | y :: l' => if pyval_eqb x y then true else list_contains x l'
  end.

(** [l.index(x)]: the first position of [x]; [None] stands for [ValueError]. *)
Fixpoint list_index (x : pyval) (l : list pyval) : option nat :=
  match l with
  | [] => None
  | y :: l' =>
      if pyval_eqb x y then Some 0
      else match list_index x l' with
           | Some i => Some (S i)
           | None => None
           end
  end.

(** [del l[i]]: [None] stands for [IndexError] (position out of range). *)
Fixpoint list_del {A : Type} (l : list A) (i : nat) : option (list A) :=
  match l, i with
  | [], _ => None
  | _ :: l', 0 => Some l'
  | y :: l', S i' =>
      match list_del l' i' with
      | Some r => Some (y :: r)
      | None => None
      end
  end.

(** ** Python dicts, insertion ordered *)

Definition pydict : Type := list (pyval * pyval).

Definition dict_keys (d : pydict) : list pyval := map fst d.
Definition dict_values (d : pydict) : list pyval := map snd d.

Fixpoint dict_get (d : pydict) (k : pyval) : option pyval :=
  match d with
  | [] => None
  | (k', v) :: d' => if pyval_eqb k k' then Some v else dict_get d' k
  end.

Definition dict_contains (d : pydict) (k : pyval) : bool :=
  match dict_get d k with
  | Some _ => true
  | None => false
  end.

(** [d[k]] *)
Definition dict_getitem (d : pydict) (k : pyval) : result pyval :=
  match dict_get d k with
  | Some v => Ok v
  | None => Raise (KeyError k)
  end.

(** [d[k] = v] *)
Fixpoint dict_set (d : pydict) (k v : pyval) : pydict :=
  match d with
  | [] => [(k, v)]
  | (k', v') :: d' =>
      if pyval_eqb k k' then (k', v) :: d' else (k', v') :: dict_set d' k v
  end.

(** [del d[k]]: [None] stands for [KeyError]. *)
Fixpoint dict_del (d : pydict) (k : pyval) : option pydict :=
  match d with
  | [] => None
  | (k', v') :: d' =>
      if pyval_eqb k k' then Some d'
      else match dict_del d' k with
           | Some r => Some ((k', v') :: r)
           | None => None
           end
  end.

(** [dict(pairs)]: the pairs are stored from left to right, a later pair with
    a key already seen overwrites its value. *)
Definition dict_of_pairs (pairs : list (pyval * pyval)) : pydict :=
  fold_left (fun d kv => dict_set d (fst kv) (snd kv)) pairs [].

(** Equality of dicts as Python's [==] has it: same keys, same value under
    each key, whatever the order. *)
Definition dict_eq (d1 d2 : pydict) : Prop :=
  forall k, dict_get d1 k = dict_get d2 k.

(** ** The [zip(self._values, self._keys)] iterator

    The iterator holds the two list objects, not copies.  [Some i] is a live
    iterator that has yielded [i] pairs; [None] is an exhausted one. *)

Definition zip_iter : Type := option nat.

(** Running the iterator to its end on the current contents of the lists. *)
Definition zip_drain (it : zip_iter) (values keys : list pyval)
  : list (pyval * pyval) * zip_iter :=
  match it with
  | Some i => (skipn i (combine values keys), None)
  | None => ([], None)
  end.

(** ** The object *)

Record ReverseDict : Type := mkReverseDict {
  forward : pydict;              (* the inherited dict storage *)
  _keys : list pyval;
  _values : list pyval;
  _inverse_items : zip_iter;
  _inverse : option pydict       (* None until built *)
}.

(** The call to [super().__init__] runs [dict]'s own initializer: it fills
    the storage directly, not through the [__setitem__] overridden below.
    The two lists are then read off the storage. *)
Definition __init__ (args : list (pyval * pyval)) : ReverseDict :=
  let d := dict_of_pairs args in
  {| forward := d;
     _keys := dict_keys d;
     _values := dict_values d;
     _inverse_items := Some 0;
     _inverse := None |}.

(** The [inverse] property: the state after the access and the dict returned. *)
Definition inverse (self : ReverseDict) : ReverseDict * pydict :=
  match _inverse self with
  | None =>
      let (items, it) :=
        zip_drain (_inverse_items self) (_values self) (_keys self) in
      let inv :=
        fold_left (fun d item => dict_set d (fst item) (snd item)) items [] in
      ({| forward := forward self;
          _keys := _keys self;
          _values := _values self;
          _inverse_items := it;
          _inverse := Some inv |}, inv)
  | Some inv => (self, inv)
  end.

Definition __contains__ (self : ReverseDict) (key : pyval)
  : ReverseDict * bool :=
  if list_contains key (_keys self) then (self, true)
  else let (self', inv) := inverse self in (self', dict_contains inv key).

Definition __setitem__ (self : ReverseDict) (key value : pyval)
  : ReverseDict :=
  let self' :=
    if negb (list_contains key (_keys self)) then
      {| forward := forward self;
         _keys := _keys self ++ [key];
         _values := _values self ++ [value];
         _inverse_items := _inverse_items self;
         _inverse := _inverse self |}
    else self in
  {| forward := dict_set (forward self') key value;
     _keys := _keys self';
     _values := _values self';
     _inverse_items := _inverse_items self';
     _inverse := _inverse self' |}.

Definition __delitem__ (self : ReverseDict) (key : pyval)
  : ReverseDict * result unit :=
  if list_contains key (_keys self) then
    match dict_del (forward self) key with
    | None => (self, Raise (KeyError key))
    | Some d =>
        let s1 := {| forward := d;
                     _keys := _keys self;
                     _values := _values self;
                     _inverse_items := _inverse_items self;
                     _inverse := _inverse self |} in
        match list_index key (_keys s1) with
        | None => (s1, Raise (ValueError key))
        | Some index =>
            match list_del (_keys s1) index with
            | None => (s1, Raise IndexError)
            | Some ks =>
                let s2 := {| forward := d;
                             _keys := ks;
                             _values := _values s1;
                             _inverse_items := _inverse_items s1;
                             _inverse := _inverse s1 |} in
                match list_del (_values s2) index with
                | None => (s2, Raise IndexError)
                | Some vs =>
                    ({| forward := d;
                        _keys := ks;
                        _values := vs;
                        _inverse_items := _inverse_items s2;
                        _inverse := _inverse s2 |}, Ok tt)
                end
            end
        end
    end
  else (self, Raise (KeyError key)).

(** [invert]: a fresh [ReverseDict()], filled through its own [__setitem__]
    from [self.items()]. *)
Definition invert (self : ReverseDict) : ReverseDict :=
  fold_left (fun inverted_dict kv => __setitem__ inverted_dict (snd kv) (fst kv))
            (forward self) (__init__ []).

Definition __getitem__ (self : ReverseDict) (key : pyval)
  : ReverseDict * result pyval :=
  if list_contains key (_keys self) then
    (self, dict_getitem (forward self) key)
  else
    let (s1, inv) := inverse self in
    if dict_contains inv key then
      let (s2, inv') := inverse s1 in (s2, dict_getitem inv' key)
    else (s1, Raise (KeyError key)).

(** ** Running a client program

    The operations of the interface, as a client calls them one after the
    other on one object; an exception raised by one call is caught by the
    client and the object lives on. *)

Inductive op : Type :=
| OpSet (key value : pyval)
| OpDel (key : pyval)
| OpGet (key : pyval)
| OpContains (key : pyval)
| OpInverse.

Definition run_op (self : ReverseDict) (o : op) : ReverseDict :=
  match o with
  | OpSet k v => __setitem__ self k v
  | OpDel k => fst (__delitem__ self k)
  | OpGet k => fst (__getitem__ self k)
  | OpContains k => fst (__contains__ self k)
  | OpInverse => fst (inverse self)
  end.

Definition run_ops (self : ReverseDict) (ops : list op) : ReverseDict :=
  fold_left run_op ops self.

(** Sample values. *)
Definition a : pyval := PStr "a".
Definition b : pyval := PStr "b".
Definition c : pyval := PStr "c".
Definition one : pyval := PInt 1%Z.
Definition two : pyval := PInt 2%Z.
Definition three : pyval := PInt 3%Z.

(** ** Invariants *)

(** What every object built by [__init__] and driven through the interface
    satisfies: the inherited storage has unique keys, [_keys] lists them in
    insertion order, [_values] is as long as [_keys], and the zip iterator
    is untouched for as long as the inverse has not been built. *)
Definition wf (s : ReverseDict) : Prop :=
  NoDup (dict_keys (forward s)) /\
  _keys s = dict_keys (forward s) /\
  length (_values s) = length (_keys s) /\
  (_inverse s = None -> _inverse_items s = Some 0).

(** The two lists are parallel: equal length, and position by position the
    value is the one stored under the key. *)
Definition parallel_lists (s : ReverseDict) : Prop :=
  length (_keys s) = length (_values s) /\
  forall i k v,
    nth_error (_keys s) i = Some k ->
    nth_error (_values s) i = Some v ->
    dict_get (forward s) k = Some v.

(** The objects a client can obtain. *)
Inductive reachable : ReverseDict -> Prop :=
| reach_init (args : list (pyval * pyval)) : reachable (__init__ args)
| reach_op (s : ReverseDict) (o : op) : reachable s -> reachable (run_op s o).

Definition swap (kv : pyval * pyval) : pyval * pyval := (snd kv, fst kv).

(** [self[k] = v] for each pair of a list, in order. *)
Definition set_all (self : ReverseDict) (pairs : list (pyval * pyval))
  : ReverseDict :=
  fold_left (fun s kv => __setitem__ s (fst kv) (snd kv)) pairs self.

(** The operation is not an assignment to key [k]. *)
Definition not_set (k : pyval) (o : op) : Prop :=
  match o with
  | OpSet k' _ => k' <> k
  | _ => True
  end.

(** * Facts about values, lists and dicts *)

Lemma pyval_eqb_eq (x y : pyval) : pyval_eqb x y = true <-> x = y.
Proof.
  unfold pyval_eqb. destruct (pyval_eq_dec x y); split; congruence.
Qed.

Lemma pyval_eqb_refl (x : pyval) : pyval_eqb x x = true.
Proof. now apply pyval_eqb_eq. Qed.

Lemma pyval_eqb_neq (x y : pyval) : pyval_eqb x y = false <-> x <> y.
Proof.
  unfold pyval_eqb. destruct (pyval_eq_dec x y); split; congruence.
Qed.

(** Case analysis on a comparison, with the equation substituted. *)
Ltac case_eqb x y :=
  let E := fresh "E" in
  destruct (pyval_eqb x y) eqn:E;
  [apply pyval_eqb_eq in E; try subst | apply pyval_eqb_neq in E].

Lemma list_contains_In (x : pyval) (l : list pyval) :
  list_contains x l = true <-> In x l.
Proof.
  induction l as [|y l IH]; simpl.
  - split; [discriminate | tauto].
  - case_eqb x y.
    + split; auto.
    + rewrite IH. split; [auto | intros [H|H]; congruence].
Qed.

Lemma list_contains_not_In (x : pyval) (l : list pyval) :
  list_contains x l = false <-> ~ In x l.
Proof.
  rewrite <- list_contains_In. destruct (list_contains x l); split; congruence.
Qed.

Lemma dict_get_None (d : pydict) (k : pyval) :
  dict_get d k = None <-> ~ In k (dict_keys d).
Proof.
  induction d as [|[k' v'] d IH]; simpl.
  - tauto.
  - case_eqb k k'.
    + split; [discriminate | intros H; exfalso; auto].
    + rewrite IH. split; [intros H [H1|H1]; congruence | tauto].
Qed.

Lemma In_dict_get (d : pydict) (k v : pyval) :
  NoDup (dict_keys d) -> In (k, v) d -> dict_get d k = Some v.
Proof.
  induction d as [|[k' v'] d IH]; simpl; [tauto|].
  intros Hnd [H|H].
  - injection H as -> ->. now rewrite pyval_eqb_refl.
  - inversion Hnd as [|? ? Hn Hnd']; subst.
    case_eqb k k'.
    + exfalso. apply Hn. change k' with (fst (k', v)). now apply in_map.
    + auto.
Qed.

Lemma dict_get_set (d : pydict) (k v k' : pyval) :
  dict_get (dict_set d k v) k' =
  if pyval_eqb k' k then Some v else dict_get d k'.
Proof.
  induction d as [|[k0 v0] d IH]; simpl.
  - reflexivity.
  - destruct (pyval_eqb k k0) eqn:E0; simpl.
    + apply pyval_eqb_eq in E0. subst k0.
      destruct (pyval_eqb k' k); reflexivity.
    + rewrite IH. destruct (pyval_eqb k' k0) eqn:E1; [|reflexivity].
      apply pyval_eqb_eq in E1. subst k0.
      destruct (pyval_eqb k' k) eqn:E2; [|reflexivity].
      apply pyval_eqb_eq in E2. subst k'.
      rewrite pyval_eqb_refl in E0. discriminate.
Qed.

Lemma dict_set_new (d : pydict) (k v : pyval) :
  ~ In k (dict_keys d) -> dict_set d k v = d ++ [(k, v)].
Proof.
  induction d as [|[k0 v0] d IH]; simpl; intros H.
  - reflexivity.
  - case_eqb k k0; [tauto|]. rewrite IH; tauto.
Qed.

Lemma dict_keys_set_old (d : pydict) (k v : pyval) :
  In k (dict_keys d) -> dict_keys (dict_set d k v) = dict_keys d.
Proof.
  induction d as [|[k0 v0] d IH]; simpl; intros H.
  - tauto.
  - case_eqb k k0; simpl; [reflexivity|].
    rewrite IH; [reflexivity | destruct H; congruence].
Qed.

Lemma dict_keys_app (d1 d2 : pydict) :
  dict_keys (d1 ++ d2) = dict_keys d1 ++ dict_keys d2.
Proof. apply map_app. Qed.

Lemma dict_values_app (d1 d2 : pydict) :
  dict_values (d1 ++ d2) = dict_values d1 ++ dict_values d2.
Proof. apply map_app. Qed.

Lemma NoDup_snoc (x : pyval) (l : list pyval) :
  NoDup l -> ~ In x l -> NoDup (l ++ [x]).
Proof.
  induction l as [|y l IH]; simpl; intros Hnd Hn.
  - constructor; [tauto | constructor].
  - inversion Hnd; subst. constructor.
    + rewrite in_app_iff; simpl. intros [H|[H|[]]]; [tauto | subst; tauto].
    + apply IH; tauto.
Qed.

Lemma dict_set_NoDup (d : pydict) (k v : pyval) :
  NoDup (dict_keys d) -> NoDup (dict_keys (dict_set d k v)).
Proof.
  intros Hnd. destruct (in_dec pyval_eq_dec k (dict_keys d)) as [H|H].
  - now rewrite dict_keys_set_old.
  - rewrite dict_set_new, dict_keys_app by assumption. now apply NoDup_snoc.
Qed.

Lemma fold_dict_set_NoDup (l : list (pyval * pyval)) (acc : pydict) :
  NoDup (dict_keys acc) ->
  NoDup (dict_keys (fold_left (fun d kv => dict_set d (fst kv) (snd kv)) l acc)).
Proof.
  revert acc. induction l as [|[k v] l IH]; simpl; intros acc H.
  - assumption.
  - apply IH. now apply dict_set_NoDup.
Qed.

Lemma dict_of_pairs_NoDup (l : list (pyval * pyval)) :
  NoDup (dict_keys (dict_of_pairs l)).
Proof. apply fold_dict_set_NoDup. constructor. Qed.

Lemma fold_dict_set_keys (l : list (pyval * pyval)) (acc : pydict) (k : pyval) :
  In k (dict_keys (fold_left (fun d kv => dict_set d (fst kv) (snd kv)) l acc))
  <-> In k (dict_keys acc) \/ In k (map fst l).
Proof.
  revert acc. induction l as [|[k0 v0] l IH]; simpl; intros acc.
  - tauto.
  - rewrite IH. clear IH.
    destruct (in_dec pyval_eq_dec k0 (dict_keys acc)) as [H|H].
    + rewrite dict_keys_set_old by assumption.
      split; [tauto | intros [H1|[H1|H1]]; subst; tauto].
    + rewrite dict_set_new, dict_keys_app, in_app_iff by assumption. simpl.
      tauto.
Qed.

Lemma fold_dict_set_fresh (l : list (pyval * pyval)) (acc : pydict) :
  NoDup (map fst l) ->
  (forall k, In k (map fst l) -> ~ In k (dict_keys acc)) ->
  fold_left (fun d kv => dict_set d (fst kv) (snd kv)) l acc = acc ++ l.
Proof.
  revert acc. induction l as [|[k v] l IH]; simpl; intros acc Hnd Hfresh.
  - now rewrite app_nil_r.
  - inversion Hnd as [|? ? Hk Hnd']; subst.
    rewrite dict_set_new by (apply Hfresh; now left).
    rewrite IH; [now rewrite <- app_assoc | assumption |].
    intros k0 Hk0. rewrite dict_keys_app, in_app_iff. simpl.
    intros [H|[H|[]]].
    + apply (Hfresh k0); auto.
    + subst. tauto.
Qed.

Lemma combine_values_keys (d : pydict) :
  combine (dict_values d) (dict_keys d) = map swap d.
Proof.
  induction d as [|[k v] d IH]; simpl; [reflexivity | now rewrite IH].
Qed.

Lemma combine_snoc (l1 l2 : list pyval) (x y : pyval) :
  length l1 = length l2 ->
  combine (l1 ++ [x]) (l2 ++ [y]) = combine l1 l2 ++ [(x, y)].
Proof.
  revert l2. induction l1 as [|x1 l1 IH]; intros [|y1 l2]; simpl;
    try discriminate; intros H.
  - reflexivity.
  - rewrite IH; [reflexivity | lia].
Qed.

(** ** Positions: [index] and [del] *)

Lemma list_del_Some {A : Type} (l : list A) (i : nat) :
  i < length l ->
  exists r, list_del l i = Some r /\ S (length r) = length l.
Proof.
  revert i. induction l as [|y l IH]; simpl; intros i Hi; [lia|].
  destruct i as [|i].
  - exists l. split; reflexivity.
  - destruct (IH i) as (r & Hr & Hlen); [lia|].
    exists (y :: r). rewrite Hr. split; [reflexivity | simpl; lia].
Qed.

Lemma list_del_nth {A : Type} (l r : list A) (i j : nat) :
  list_del l i = Some r ->
  nth_error r j = if j <? i then nth_error l j else nth_error l (S j).
Proof.
  revert r i j. induction l as [|y l IH]; simpl; intros r i j; [discriminate|].
  destruct i as [|i].
  - intros [= <-]. reflexivity.
  - destruct (list_del l i) as [r'|] eqn:Hr; [|discriminate].
    intros [= <-]. destruct j as [|j]; simpl; [reflexivity|].
    rewrite (IH r' i j Hr).
    change (S j <? S i) with (j <? i). reflexivity.
Qed.

(** Deleting a key of a dict with unique keys, seen on its lists of keys and
    of values. *)
Lemma dict_del_spec (d : pydict) (k : pyval) :
  NoDup (dict_keys d) -> In k (dict_keys d) ->
  exists i d',
    list_index k (dict_keys d) = Some i /\
    dict_del d k = Some d' /\
    list_del (dict_keys d) i = Some (dict_keys d') /\
    list_del (dict_values d) i = Some (dict_values d') /\
    NoDup (dict_keys d') /\
    (forall k', In k' (dict_keys d') <-> In k' (dict_keys d) /\ k' <> k) /\
    (forall k', k' <> k -> dict_get d' k' = dict_get d k').
Proof.
  induction d as [|[k0 v0] d IH]; simpl; intros Hnd Hin; [tauto|].
  inversion Hnd as [|? ? Hk0 Hnd']; subst.
  case_eqb k k0.
  - exists 0, d. do 5 (split; [auto|]). split.
    + intros k'. split.
      * intros H. split; [now right | intros ->; auto].
      * intros [[H|H] Hne]; congruence.
    + intros k' Hne. case_eqb k' k0; [congruence | reflexivity].
  - destruct IH as (i & d' & Hi & Hd & Hks & Hvs & Hnd1 & Hmem & Hget);
      [assumption | destruct Hin; congruence |].
    exists (S i), ((k0, v0) :: d'). rewrite Hi, Hd. simpl.
    rewrite Hks, Hvs. do 4 (split; [reflexivity|]). split; [|split].
    + constructor; [rewrite Hmem; tauto | assumption].
    + intros k'. rewrite Hmem. split.
      * intros [H|H]; [split; [now left | congruence] | tauto].
      * tauto.
    + intros k' Hne. rewrite Hget by assumption. reflexivity.
Qed.

Lemma list_index_lt (x : pyval) (l : list pyval) (i : nat) :
  list_index x l = Some i -> i < length l.
Proof.
  revert i. induction l as [|y l IH]; simpl; intros i; [discriminate|].
  destruct (pyval_eqb x y).
  - intros [= <-]. lia.
  - destruct (list_index x l) as [j|]; [|discriminate].
    intros [= <-]. specialize (IH j eq_refl). lia.
Qed.

(** * The operations, one by one *)

(** ** [inverse] *)

Lemma inverse_built (s : ReverseDict) (inv : pydict) :
  _inverse s = Some inv -> inverse s = (s, inv).
Proof. unfold inverse. now intros ->. Qed.

Lemma inverse_fresh (s : ReverseDict) :
  _inverse s = None -> _inverse_items s = Some 0 ->
  inverse s =
  ({| forward := forward s; _keys := _keys s; _values := _values s;
      _inverse_items := None;
      _inverse := Some (dict_of_pairs (combine (_values s) (_keys s))) |},
   dict_of_pairs (combine (_values s) (_keys s))).
Proof. unfold inverse. intros -> ->. reflexivity. Qed.

Lemma inverse_frame (s : ReverseDict) :
  forward (fst (inverse s)) = forward s /\
  _keys (fst (inverse s)) = _keys s /\
  _values (fst (inverse s)) = _values s /\
  _inverse (fst (inverse s)) = Some (snd (inverse s)).
Proof.
  unfold inverse. destruct (_inverse s) eqn:E; simpl.
  - auto.
  - destruct (zip_drain _ _ _). simpl. auto.
Qed.

Lemma inverse_twice (s : ReverseDict) :
  inverse (fst (inverse s)) = (fst (inverse s), snd (inverse s)).
Proof.
  apply inverse_built. apply inverse_frame.
Qed.

(** ** [__setitem__] *)

Lemma setitem_new (s : ReverseDict) (k v : pyval) :
  ~ In k (_keys s) ->
  __setitem__ s k v =
  {| forward := dict_set (forward s) k v;
     _keys := _keys s ++ [k];
     _values := _values s ++ [v];
     _inverse_items := _inverse_items s;
     _inverse := _inverse s |}.
Proof.
  intros H. apply list_contains_not_In in H.
  unfold __setitem__. now rewrite H.
Qed.

Lemma setitem_old (s : ReverseDict) (k v : pyval) :
  In k (_keys s) ->
  __setitem__ s k v =
  {| forward := dict_set (forward s) k v;
     _keys := _keys s;
     _values := _values s;
     _inverse_items := _inverse_items s;
     _inverse := _inverse s |}.
Proof.
  intros H. apply list_contains_In in H.
  unfold __setitem__. now rewrite H.
Qed.

Lemma setitem_inverse (s : ReverseDict) (k v : pyval) :
  _inverse (__setitem__ s k v) = _inverse s /\
  _inverse_items (__setitem__ s k v) = _inverse_items s.
Proof.
  unfold __setitem__. destruct (list_contains k (_keys s)); simpl; auto.
Qed.

(** ** [__delitem__] *)

Lemma delitem_absent (s : ReverseDict) (k : pyval) :
  ~ In k (_keys s) -> __delitem__ s k = (s, Raise (KeyError k)).
Proof.
  intros H. apply list_contains_not_In in H.
  unfold __delitem__. now rewrite H.
Qed.

Lemma delitem_present (s : ReverseDict) (k : pyval) :
  wf s -> In k (_keys s) ->
  exists i d ks vs,
    list_index k (_keys s) = Some i /\
    dict_del (forward s) k = Some d /\
    list_del (_keys s) i = Some ks /\
    list_del (_values s) i = Some vs /\
    __delitem__ s k =
    ({| forward := d; _keys := ks; _values := vs;
        _inverse_items := _inverse_items s; _inverse := _inverse s |}, Ok tt) /\
    ks = dict_keys d /\
    NoDup ks /\
    (forall k', In k' ks <-> In k' (_keys s) /\ k' <> k) /\
    (forall k', k' <> k -> dict_get d k' = dict_get (forward s) k') /\
    length vs = length ks.
Proof.
  intros (Hnd & Hkeys & Hlen & _) Hin.
  rewrite Hkeys in Hin.
  destruct (dict_del_spec (forward s) k Hnd Hin)
    as (i & d & Hi & Hd & Hks & _ & Hnd' & Hmem & Hget).
  rewrite <- Hkeys in Hi, Hks, Hmem.
  destruct (list_del_Some (_values s) i) as (vs & Hvs & Hlvs).
  { rewrite Hlen. now apply list_index_lt with (x := k). }
  destruct (list_del_Some (_keys s) i) as (ks & Hks' & Hlks).
  { now apply list_index_lt with (x := k). }
  assert (ks = dict_keys d) by congruence. subst ks.
  exists i, d, (dict_keys d), vs.
  do 4 (split; [assumption|]).
  split; [|do 4 (split; [solve [auto]|]); simpl in *; lia].
  unfold __delitem__.
  rewrite <- Hkeys in Hin. apply list_contains_In in Hin. rewrite Hin, Hd.
  simpl. rewrite Hi, Hks. simpl. rewrite Hvs. reflexivity.
Qed.

Lemma delitem_inverse (s : ReverseDict) (k : pyval) :
  _inverse (fst (__delitem__ s k)) = _inverse s /\
  _inverse_items (fst (__delitem__ s k)) = _inverse_items s.
Proof.
  unfold __delitem__.
  destruct (list_contains k (_keys s)); [|auto].
  destruct (dict_del (forward s) k); [|auto]. simpl.
  destruct (list_index k (_keys s)); [|auto].
  destruct (list_del (_keys s) n); [|auto]. simpl.
  destruct (list_del (_values s) n); auto.
Qed.

(** ** [__getitem__] and [__contains__] *)

Lemma getitem_hit (s : ReverseDict) (k : pyval) :
  In k (_keys s) -> __getitem__ s k = (s, dict_getitem (forward s) k).
Proof.
  intros H. apply list_contains_In in H.
  unfold __getitem__. now rewrite H.
Qed.

Lemma getitem_miss (s : ReverseDict) (k : pyval) :
  ~ In k (_keys s) ->
  __getitem__ s k = (fst (inverse s), dict_getitem (snd (inverse s)) k).
Proof.
  intros H. apply list_contains_not_In in H.
  unfold __getitem__. rewrite H.
  destruct (inverse s) as [s1 inv] eqn:E. simpl.
  assert (E1 : inverse s1 = (s1, inv)).
  { pose proof (inverse_twice s) as T. now rewrite E in T. }
  unfold dict_contains, dict_getitem.
  destruct (dict_get inv k) eqn:G.
  - rewrite E1. unfold dict_getitem. now rewrite G.
  - reflexivity.
Qed.

Lemma contains_hit (s : ReverseDict) (k : pyval) :
  In k (_keys s) -> __contains__ s k = (s, true).
Proof.
  intros H. apply list_contains_In in H.
  unfold __contains__. now rewrite H.
Qed.

Lemma contains_miss (s : ReverseDict) (k : pyval) :
  ~ In k (_keys s) ->
  __contains__ s k = (fst (inverse s), dict_contains (snd (inverse s)) k).
Proof.
  intros H. apply list_contains_not_In in H.
  unfold __contains__. rewrite H.
  now destruct (inverse s).
Qed.

(** Reading never touches the storage or the two lists: at most it builds
    the inverse. *)
Lemma getitem_state (s : ReverseDict) (k : pyval) :
  fst (__getitem__ s k) = s \/ fst (__getitem__ s k) = fst (inverse s).
Proof.
  destruct (in_dec pyval_eq_dec k (_keys s)) as [H|H].
  - left. now rewrite getitem_hit.
  - right. now rewrite getitem_miss.
Qed.

Lemma contains_state (s : ReverseDict) (k : pyval) :
  fst (__contains__ s k) = s \/ fst (__contains__ s k) = fst (inverse s).
Proof.
  destruct (in_dec pyval_eq_dec k (_keys s)) as [H|H].
  - left. now rewrite contains_hit.
  - right. now rewrite contains_miss.
Qed.

(** * The invariant holds of every object a client can obtain *)

Lemma wf_init (args : list (pyval * pyval)) : wf (__init__ args).
Proof.
  unfold wf, __init__; simpl. repeat split.
  - apply dict_of_pairs_NoDup.
  - unfold dict_values, dict_keys. now rewrite !length_map.
Qed.

Lemma wf_setitem (s : ReverseDict) (k v : pyval) :
  wf s -> wf (__setitem__ s k v).
Proof.
  intros (Hnd & Hkeys & Hlen & Hit).
  destruct (in_dec pyval_eq_dec k (_keys s)) as [H|H].
  - rewrite setitem_old by assumption. unfold wf; simpl.
    rewrite Hkeys in H. rewrite dict_keys_set_old by assumption. auto.
  - rewrite setitem_new by assumption. unfold wf; simpl.
    rewrite Hkeys in H.
    rewrite dict_set_new, dict_keys_app, !length_app by assumption. simpl.
    split; [now apply NoDup_snoc|].
    split; [now rewrite Hkeys|]. split; [lia | assumption].
Qed.

Lemma wf_inverse (s : ReverseDict) : wf s -> wf (fst (inverse s)).
Proof.
  intros (Hnd & Hkeys & Hlen & Hit).
  destruct (inverse_frame s) as (Hf & Hk & Hv & Hi).
  unfold wf. rewrite Hf, Hk, Hv, Hi. repeat split; auto. discriminate.
Qed.

Lemma wf_delitem (s : ReverseDict) (k : pyval) :
  wf s -> wf (fst (__delitem__ s k)).
Proof.
  intros Hwf. destruct (in_dec pyval_eq_dec k (_keys s)) as [H|H].
  - destruct (delitem_present s k Hwf H)
      as (i & d & ks & vs & _ & _ & _ & _ & Heq & Hks & Hnd & _ & _ & Hlen).
    rewrite Heq. unfold wf; simpl. subst ks.
    destruct Hwf as (_ & _ & _ & Hit). auto.
  - now rewrite delitem_absent.
Qed.

Lemma wf_run_op (s : ReverseDict) (o : op) : wf s -> wf (run_op s o).
Proof.
  intros Hwf. destruct o as [k v|k|k|k|]; simpl.
  - now apply wf_setitem.
  - now apply wf_delitem.
  - destruct (getitem_state s k) as [-> | ->]; [|apply wf_inverse]; assumption.
  - destruct (contains_state s k) as [-> | ->]; [|apply wf_inverse]; assumption.
  - now apply wf_inverse.
Qed.

Lemma wf_run_ops (ops : list op) (s : ReverseDict) :
  wf s -> wf (run_ops s ops).
Proof.
  revert s. induction ops as [|o ops IH]; simpl; intros s Hwf.
  - assumption.
  - apply IH. now apply wf_run_op.
Qed.

Lemma reachable_wf (s : ReverseDict) : reachable s -> wf s.
Proof.
  induction 1 as [args | s o _ IH].
  - apply wf_init.
  - now apply wf_run_op.
Qed.

(** * The cached inverse is frozen *)

Lemma run_op_inverse (s : ReverseDict) (o : op) (inv : pydict) :
  _inverse s = Some inv -> _inverse (run_op s o) = Some inv.
Proof.
  intros H. pose proof (inverse_built s inv H) as Hb.
  destruct o as [k v|k|k|k|]; cbn [run_op].
  - now rewrite (proj1 (setitem_inverse s k v)).
  - now rewrite (proj1 (delitem_inverse s k)).
  - destruct (getitem_state s k) as [-> | ->]; [|rewrite Hb]; assumption.
  - destruct (contains_state s k) as [-> | ->]; [|rewrite Hb]; assumption.
  - now rewrite Hb.
Qed.

Lemma run_ops_inverse (ops : list op) (s : ReverseDict) (inv : pydict) :
  _inverse s = Some inv -> _inverse (run_ops s ops) = Some inv.
Proof.
  revert s. induction ops as [|o ops IH]; simpl; intros s H.
  - assumption.
  - apply IH. now apply run_op_inverse.
Qed.

Lemma inverse_frozen (ops : list op) (s : ReverseDict) (inv : pydict) :
  _inverse s = Some inv -> snd (inverse (run_ops s ops)) = inv.
Proof.
  intros H. now rewrite (inverse_built _ inv (run_ops_inverse ops s inv H)).
Qed.

(** ** What the first access to [inverse] sees *)

Lemma set_all_fresh (news : list (pyval * pyval)) (s : ReverseDict) :
  _keys s = dict_keys (forward s) ->
  NoDup (map fst news) ->
  (forall k, In k (map fst news) -> ~ In k (_keys s)) ->
  set_all s news =
  {| forward := forward s ++ news;
     _keys := _keys s ++ map fst news;
     _values := _values s ++ map snd news;
     _inverse_items := _inverse_items s;
     _inverse := _inverse s |}.
Proof.
  revert s. induction news as [|[k v] news IH]; simpl; intros s Hkeys Hnd Hfresh.
  - rewrite !app_nil_r. now destruct s.
  - inversion Hnd as [|? ? Hk Hnd']; subst.
    assert (Hnew : ~ In k (_keys s)) by (apply Hfresh; now left).
    rewrite setitem_new by assumption.
    rewrite IH; simpl.
    + rewrite dict_set_new by (now rewrite <- Hkeys).
      now rewrite <- !app_assoc.
    + rewrite dict_set_new, dict_keys_app by (now rewrite <- Hkeys).
      now rewrite Hkeys.
    + assumption.
    + intros k0 Hk0. rewrite in_app_iff. simpl.
      intros [H|[H|[]]]; [apply (Hfresh k0); auto | subst; tauto].
Qed.

Lemma fold_dict_set_get_In (l : list (pyval * pyval)) (acc : pydict)
      (x y : pyval) :
  dict_get (fold_left (fun d kv => dict_set d (fst kv) (snd kv)) l acc) x
  = Some y ->
  In (x, y) l \/ dict_get acc x = Some y.
Proof.
  revert acc. induction l as [|[k v] l IH]; simpl; intros acc H.
  - now right.
  - destruct (IH _ H) as [H1|H1]; [auto|].
    rewrite dict_get_set in H1. case_eqb x k.
    + injection H1 as ->. auto.
    + auto.
Qed.

(** On an object whose value list still mirrors the storage, an entry of
    the freshly built inverse is a stored pair turned around. *)
Lemma inverse_entry_original (s : ReverseDict) (v k : pyval) :
  wf s -> _inverse s = None -> _values s = dict_values (forward s) ->
  dict_get (snd (inverse s)) v = Some k ->
  dict_get (forward s) k = Some v.
Proof.
  intros (Hnd & Hkeys & _ & Hit) Hnone Hvals.
  rewrite inverse_fresh by auto. simpl.
  rewrite Hkeys, Hvals, combine_values_keys. unfold dict_of_pairs.
  intros H. apply fold_dict_set_get_In in H. destruct H as [H|H].
  - apply in_map_iff in H. destruct H as ([k0 v0] & Hsw & Hin).
    unfold swap in Hsw. simpl in Hsw. injection Hsw as -> ->.
    now apply In_dict_get.
  - discriminate.
Qed.

(** A key that is new to an object whose inverse is not yet built is what
    [inverse] then answers for its value, whatever was stored before. *)
Lemma setitem_new_key_inverse (s : ReverseDict) (k v : pyval) :
  wf s -> _inverse s = None -> ~ In k (_keys s) ->
  dict_getitem (snd (inverse (__setitem__ s k v))) v = Ok k.
Proof.
  intros (Hnd & Hkeys & Hlen & Hit) Hnone Hnew.
  rewrite setitem_new by assumption.
  rewrite inverse_fresh by (simpl; auto). simpl.
  rewrite combine_snoc by assumption.
  unfold dict_of_pairs, dict_getitem. rewrite fold_left_app. simpl.
  now rewrite dict_get_set, pyval_eqb_refl.
Qed.

(** * The properties of the specification *)

(** C1 (as amended).  The inverse is built once, at the first access, from the
    pairs the two lists hold at that moment: for an object built from
    [args] and then given new keys by [news], it is the dict of the stored
    pairs followed by [news], each turned around.  From then on the mapping
    is frozen: after any later calls (assignments included) [inverse] returns
    the same dict, so [inverse()[v]] raises [KeyError] for every [v] that was
    not a key of it when it was built. *)
Theorem inverse_built_once_and_frozen (args news : list (pyval * pyval)) :
  NoDup (map fst news) ->
  (forall k, In k (map fst news) -> ~ In k (map fst args)) ->
  let s0 := set_all (__init__ args) news in
  let inv := snd (inverse s0) in
  inv = dict_of_pairs (map swap (dict_of_pairs args ++ news)) /\
  forall ops : list op,
    let s := run_ops (fst (inverse s0)) ops in
    snd (inverse s) = inv /\
    forall v, dict_get inv v = None ->
              dict_getitem (snd (inverse s)) v = Raise (KeyError v).
Proof.
  intros Hnd Hfresh s0 inv.
  assert (Hs0 : s0 =
    {| forward := dict_of_pairs args ++ news;
       _keys := dict_keys (dict_of_pairs args ++ news);
       _values := dict_values (dict_of_pairs args ++ news);
       _inverse_items := Some 0; _inverse := None |}).
  { unfold s0. rewrite set_all_fresh; simpl.
    - now rewrite dict_keys_app, dict_values_app.
    - reflexivity.
    - assumption.
    - intros k Hk Hin. apply (Hfresh k Hk).
      unfold dict_of_pairs in Hin. apply fold_dict_set_keys in Hin.
      simpl in Hin. tauto. }
  assert (Hinv : inv = dict_of_pairs (map swap (dict_of_pairs args ++ news))).
  { unfold inv. rewrite Hs0, inverse_fresh by reflexivity. simpl.
    now rewrite combine_values_keys. }
  split; [assumption|].
  intros ops s.
  assert (Hfrozen : snd (inverse s) = inv).
  { unfold s. apply inverse_frozen. apply inverse_frame. }
  split; [assumption|].
  intros v Hv. rewrite Hfrozen. unfold dict_getitem. now rewrite Hv.
Qed.

Lemma inverse_built_once_and_frozen_witness :
  NoDup (map fst [(c, three)]) /\
  (forall k, In k (map fst [(c, three)]) ->
             ~ In k (map fst [(a, one); (b, two)])) /\
  let s0 := set_all (__init__ [(a, one); (b, two)]) [(c, three)] in
  let inv := snd (inverse s0) in
  inv = dict_of_pairs
          (map swap (dict_of_pairs [(a, one); (b, two)] ++ [(c, three)])) /\
  forall ops : list op,
    let s := run_ops (fst (inverse s0)) ops in
    snd (inverse s) = inv /\
    forall v, dict_get inv v = None ->
              dict_getitem (snd (inverse s)) v = Raise (KeyError v).
Proof.
  assert (H1 : NoDup (map fst [(c, three)])).
  { simpl. constructor; [simpl; tauto | constructor]. }
  assert (H2 : forall k, In k (map fst [(c, three)]) ->
                         ~ In k (map fst [(a, one); (b, two)])).
  { simpl. intros k [<-|[]] [H|[H|[]]]; discriminate H. }
  split; [exact H1|]. split; [exact H2|].
  exact (inverse_built_once_and_frozen [(a, one); (b, two)] [(c, three)] H1 H2).
Defined.

(** C1, the scenario of the specification: built from [{a: 1, b: 2}], the
    first [inverse] is [{1: a, 2: b}]; after [self[c] = 3] the key [3] is
    not in it. *)
Example inverse_regression_scenario :
  snd (inverse (__init__ [(a, one); (b, two)])) = [(one, a); (two, b)] /\
  dict_getitem
    (snd (inverse (run_ops (__init__ [(a, one); (b, two)])
                           [OpInverse; OpSet c three])))
    three = Raise (KeyError three).
Proof. split; reflexivity. Qed.

(** C1 as stated fails: a value assigned after the inverse was built can be
    a key of the frozen inverse already.  Here [a: 1] is stored, the inverse
    is built, [a] is deleted and [b: 1] is assigned; the map now holds
    [b: 1] alone, and [inverse()[1]] does not raise: it answers [a]. *)
Lemma stale_inverse_answers_deleted_key :
  forward (run_ops (__init__ [(a, one)]) [OpInverse; OpDel a; OpSet b one])
  = [(b, one)] /\
  dict_getitem
    (snd (inverse (run_ops (__init__ [(a, one)])
                           [OpInverse; OpDel a; OpSet b one])))
    one = Ok a.
Proof. split; reflexivity. Qed.

(** C2.  [self[k]] answers from the storage when [k] is in [_keys]; failing
    that, it answers the key the inverse (built now if it was not yet, cached
    otherwise) holds for [k]; failing that too, it raises [KeyError].  A [k]
    that is both a stored key and a stored value is thus read as a key.  On
    an object whose inverse is built by this very call and whose values
    mirror the storage, the key answered is one that is stored with [k] as
    its value. *)
Theorem getitem_forward_then_inverse (s : ReverseDict) (k : pyval) :
  wf s ->
  (In k (_keys s) ->
   exists v, dict_get (forward s) k = Some v /\ __getitem__ s k = (s, Ok v)) /\
  (~ In k (_keys s) ->
   forall k', dict_get (snd (inverse s)) k = Some k' ->
              __getitem__ s k = (fst (inverse s), Ok k')) /\
  (~ In k (_keys s) ->
   dict_get (snd (inverse s)) k = None ->
   __getitem__ s k = (fst (inverse s), Raise (KeyError k))) /\
  (_inverse s = None -> _values s = dict_values (forward s) ->
   forall k', dict_get (snd (inverse s)) k = Some k' ->
              dict_get (forward s) k' = Some k).
Proof.
  intros Hwf. split; [|split; [|split]].
  - intros Hin. rewrite getitem_hit by assumption.
    destruct Hwf as (_ & Hkeys & _).
    destruct (dict_get (forward s) k) as [v|] eqn:G.
    + exists v. unfold dict_getitem. now rewrite G.
    + apply dict_get_None in G. rewrite <- Hkeys in G. contradiction.
  - intros Hout k' G. rewrite getitem_miss by assumption.
    unfold dict_getitem. now rewrite G.
  - intros Hout G. rewrite getitem_miss by assumption.
    unfold dict_getitem. now rewrite G.
  - intros Hnone Hvals k' G. now apply inverse_entry_original.
Qed.

Lemma getitem_forward_then_inverse_witness :
  wf (__init__ [(a, b); (b, c)]) /\
  __getitem__ (__init__ [(a, b); (b, c)]) b = (__init__ [(a, b); (b, c)], Ok c) /\
  snd (__getitem__ (__init__ [(a, b); (b, c)]) c) = Ok b /\
  snd (__getitem__ (__init__ [(a, b); (b, c)]) one) = Raise (KeyError one).
Proof.
  pose proof (wf_init [(a, b); (b, c)]) as Hwf.
  split; [exact Hwf|].
  split; [|split].
  - destruct (getitem_forward_then_inverse _ b Hwf) as (H & _).
    destruct H as (v & Hv & Heq); [simpl; auto|].
    rewrite Heq. injection Hv as <-. reflexivity.
  - destruct (getitem_forward_then_inverse _ c Hwf) as (_ & H & _).
    rewrite (H ltac:(simpl; intros [E|[E|[]]]; discriminate E) b eq_refl).
    reflexivity.
  - destruct (getitem_forward_then_inverse _ one Hwf) as (_ & _ & H & _).
    rewrite (H ltac:(simpl; intros [E|[E|[]]]; discriminate E) eq_refl).
    reflexivity.
Defined.

(** C3, where the code departs from the specification: assigning to a key that is
    already present leaves [_values] alone, so the value assigned never
    reaches the inverse.  From [{a: 1}], before any access to [inverse],
    [self[a] = 2] stores [a: 2] and [inverse()[2]] raises [KeyError]. *)
Theorem setitem_present_key_missing_from_inverse :
  _inverse (__setitem__ (__init__ [(a, one)]) a two) = None /\
  forward (__setitem__ (__init__ [(a, one)]) a two) = [(a, two)] /\
  _values (__setitem__ (__init__ [(a, one)]) a two) = [one] /\
  dict_getitem (snd (inverse (__setitem__ (__init__ [(a, one)]) a two))) two
  = Raise (KeyError two).
Proof. repeat split. Qed.

Lemma list_del_In {A : Type} (l r : list A) (i : nat) (x : A) :
  list_del l i = Some r -> In x r -> In x l.
Proof.
  revert r i. induction l as [|y l IH]; simpl; intros r i; [discriminate|].
  destruct i as [|i].
  - intros [= <-]. auto.
  - destruct (list_del l i) as [r'|] eqn:Hr; [|discriminate].
    intros [= <-] [H|H]; [now left | right; now apply (IH r' i)].
Qed.

Lemma delitem_keys_In (s : ReverseDict) (k x : pyval) :
  In x (_keys (fst (__delitem__ s k))) -> In x (_keys s).
Proof.
  unfold __delitem__.
  destruct (list_contains k (_keys s)); [|auto].
  destruct (dict_del (forward s) k); [|auto]. simpl.
  destruct (list_index k (_keys s)) as [i|]; [|auto].
  destruct (list_del (_keys s) i) as [ks|] eqn:Hks; [|auto]. simpl.
  destruct (list_del (_values s) i); simpl; now apply list_del_In with (i := i).
Qed.

(** A key that is absent stays absent until it is assigned. *)
Lemma run_ops_keeps_absent (k : pyval) (ops : list op) (s : ReverseDict) :
  ~ In k (_keys s) -> Forall (not_set k) ops ->
  ~ In k (_keys (run_ops s ops)).
Proof.
  revert s. induction ops as [|o ops IH]; simpl; intros s Hout Hops.
  - assumption.
  - inversion Hops as [|? ? Ho Hops']; subst.
    apply IH; [|assumption].
    destruct o as [k' v'|k'|k'|k'|]; cbn [run_op]; simpl in Ho.
    + destruct (in_dec pyval_eq_dec k' (_keys s)) as [H|H].
      * now rewrite setitem_old.
      * rewrite setitem_new by assumption. simpl. rewrite in_app_iff.
        simpl. intros [H1|[H1|[]]]; [tauto | congruence].
    + intros H. apply delitem_keys_In in H. contradiction.
    + destruct (getitem_state s k') as [-> | ->]; [assumption|].
      now rewrite (proj1 (proj2 (inverse_frame s))).
    + destruct (contains_state s k') as [-> | ->]; [assumption|].
      now rewrite (proj1 (proj2 (inverse_frame s))).
    + now rewrite (proj1 (proj2 (inverse_frame s))).
Qed.

(** C4 (as amended).  Deleting a key that is in [_keys] removes its entry
    from the storage and its position, the first and only one, from [_keys]
    and from [_values]; deleting a key that is not there raises [KeyError]
    and changes nothing.  After the deletion, and until the key is assigned
    again, [self[k]] is answered by the inverse alone: it raises [KeyError]
    exactly when [k] is not a key of the inverse. *)
Theorem delitem_removes_entry (s : ReverseDict) (k : pyval) :
  wf s ->
  (In k (_keys s) ->
   exists i d ks vs,
     list_index k (_keys s) = Some i /\
     dict_del (forward s) k = Some d /\
     list_del (_keys s) i = Some ks /\
     list_del (_values s) i = Some vs /\
     __delitem__ s k =
     ({| forward := d; _keys := ks; _values := vs;
         _inverse_items := _inverse_items s; _inverse := _inverse s |},
      Ok tt) /\
     dict_get d k = None /\
     ~ In k ks /\
     forall ops, Forall (not_set k) ops ->
       let s' := run_ops (fst (__delitem__ s k)) ops in
       snd (__getitem__ s' k) = dict_getitem (snd (inverse s')) k /\
       (dict_get (snd (inverse s')) k = None ->
        snd (__getitem__ s' k) = Raise (KeyError k))) /\
  (~ In k (_keys s) -> __delitem__ s k = (s, Raise (KeyError k))).
Proof.
  intros Hwf. split; [|apply delitem_absent].
  intros Hin.
  destruct (delitem_present s k Hwf Hin)
    as (i & d & ks & vs & Hi & Hd & Hks & Hvs & Heq & Hkd & _ & Hmem & _).
  assert (Hout : ~ In k ks) by (rewrite Hmem; tauto).
  exists i, d, ks, vs. do 5 (split; [assumption|]).
  split; [apply dict_get_None; now rewrite <- Hkd|].
  split; [assumption|].
  intros ops Hops s'.
  assert (Hout' : ~ In k (_keys s')).
  { unfold s'. apply run_ops_keeps_absent; [|assumption].
    now rewrite Heq. }
  rewrite getitem_miss by assumption. simpl.
  split; [reflexivity|].
  intros G. unfold dict_getitem. now rewrite G.
Qed.

Lemma delitem_removes_entry_witness :
  wf (__init__ [(a, one); (b, two)]) /\
  fst (__delitem__ (__init__ [(a, one); (b, two)]) a)
  = {| forward := [(b, two)]; _keys := [b]; _values := [two];
       _inverse_items := Some 0; _inverse := None |} /\
  snd (__getitem__ (fst (__delitem__ (__init__ [(a, one); (b, two)]) a)) a)
  = Raise (KeyError a) /\
  __delitem__ (__init__ [(a, one); (b, two)]) c
  = (__init__ [(a, one); (b, two)], Raise (KeyError c)).
Proof.
  pose proof (wf_init [(a, one); (b, two)]) as Hwf.
  destruct (delitem_removes_entry _ a Hwf) as (Hpresent & _).
  destruct (delitem_removes_entry _ c Hwf) as (_ & Habsent).
  split; [exact Hwf|].
  destruct Hpresent as (i & d & ks & vs & Hi & Hd & Hks & Hvs & Heq & _ & _ & Hget);
    [simpl; auto|].
  injection Hi as <-. injection Hd as <-.
  injection Hks as <-. injection Hvs as <-.
  split; [now rewrite Heq|]. split.
  - apply (Hget [] (Forall_nil _)). reflexivity.
  - apply Habsent. simpl. intros [E|[E|[]]]; discriminate E.
Defined.

(** C4 as stated fails when the deleted key is also a stored value: from
    [{a: b, b: c}], after [del self[b]] the read [self[b]] does not raise,
    the inverse answers [a]. *)
Lemma getitem_after_delitem_answers_from_inverse :
  snd (__delitem__ (__init__ [(a, b); (b, c)]) b) = Ok tt /\
  snd (__getitem__ (fst (__delitem__ (__init__ [(a, b); (b, c)]) b)) b)
  = Ok a.
Proof. split; reflexivity. Qed.

Lemma dict_contains_keys (d : pydict) (k : pyval) :
  dict_contains d k = true <-> In k (dict_keys d).
Proof.
  unfold dict_contains. destruct (dict_get d k) eqn:G.
  - split; [intros _ | reflexivity].
    destruct (in_dec pyval_eq_dec k (dict_keys d)) as [H|H]; [assumption|].
    apply dict_get_None in H. congruence.
  - apply dict_get_None in G. split; [discriminate | contradiction].
Qed.

(** C5 (as amended).  [key in self] is true exactly when the key is in
    [_keys] or is a key of the inverse, built now if it was not yet and as
    cached otherwise.  On an object whose inverse is not yet built and whose
    [_values] mirror the storage, it is therefore true of every stored value,
    key or not.  The inverse is built by the test only when the key is not in
    [_keys]: a key found there leaves the object as it was. *)
Theorem contains_stored_value (s : ReverseDict) (v : pyval) :
  wf s ->
  (snd (__contains__ s v) = true <->
   In v (_keys s) \/ In v (dict_keys (snd (inverse s)))) /\
  (In v (_keys s) -> fst (__contains__ s v) = s) /\
  (~ In v (_keys s) -> fst (__contains__ s v) = fst (inverse s)) /\
  (_inverse s = None -> _values s = dict_values (forward s) ->
   In v (dict_values (forward s)) ->
   snd (__contains__ s v) = true /\
   (~ In v (_keys s) ->
    _inverse (fst (__contains__ s v))
    = Some (dict_of_pairs (map swap (forward s))))).
Proof.
  intros Hwf.
  assert (Hiff : snd (__contains__ s v) = true <->
                 In v (_keys s) \/ In v (dict_keys (snd (inverse s)))).
  { destruct (in_dec pyval_eq_dec v (_keys s)) as [H|H].
    - rewrite contains_hit by assumption. simpl. tauto.
    - rewrite contains_miss by assumption. simpl.
      rewrite dict_contains_keys. tauto. }
  split; [assumption|].
  split; [intros H; now rewrite contains_hit|].
  split; [intros H; now rewrite contains_miss|].
  intros Hnone Hvals Hin.
  destruct Hwf as (Hnd & Hkeys & Hlen & Hit).
  assert (Hinv : inverse s =
                 (fst (inverse s), dict_of_pairs (map swap (forward s)))).
  { rewrite inverse_fresh by auto. simpl.
    now rewrite Hkeys, Hvals, combine_values_keys. }
  split.
  - apply Hiff. right. rewrite Hinv. simpl.
    unfold dict_of_pairs. apply fold_dict_set_keys. right.
    rewrite map_map. unfold swap. simpl. exact Hin.
  - intros Hout. rewrite contains_miss by assumption. simpl.
    rewrite (proj2 (proj2 (proj2 (inverse_frame s)))).
    now rewrite Hinv.
Qed.

Lemma contains_stored_value_witness :
  wf (__init__ [(a, one); (b, two)]) /\
  snd (__contains__ (__init__ [(a, one); (b, two)]) two) = true /\
  _inverse (fst (__contains__ (__init__ [(a, one); (b, two)]) two))
  = Some [(one, a); (two, b)].
Proof.
  pose proof (wf_init [(a, one); (b, two)]) as Hwf.
  split; [exact Hwf|].
  destruct (contains_stored_value _ two Hwf) as (_ & _ & _ & H).
  destruct H as (Htrue & Hbuilt);
    [reflexivity | reflexivity | simpl; auto |].
  split; [exact Htrue|].
  apply Hbuilt. simpl. intros [E|[E|[]]]; discriminate E.
Defined.

(** C5 as stated fails twice over.  A value assigned after the inverse was
    built is a stored value that [in] does not find: from [{a: 1, b: 2}],
    after an access to [inverse] and [self[c] = 3], [3 in self] is false.
    And a stored value that is a key too is found among the keys, which
    leaves the inverse unbuilt: on [{a: b, b: c}], [b in self] is true and
    [_inverse] is still [None]. *)
Lemma contains_misses_later_value_and_skips_build :
  (In three
      (dict_values
         (forward (run_ops (__init__ [(a, one); (b, two)])
                           [OpInverse; OpSet c three]))) /\
   snd (__contains__ (run_ops (__init__ [(a, one); (b, two)])
                              [OpInverse; OpSet c three]) three) = false) /\
  (In b (dict_values (forward (__init__ [(a, b); (b, c)]))) /\
   _inverse (__init__ [(a, b); (b, c)]) = None /\
   __contains__ (__init__ [(a, b); (b, c)]) b
   = (__init__ [(a, b); (b, c)], true) /\
   _inverse (fst (__contains__ (__init__ [(a, b); (b, c)]) b)) = None).
Proof.
  split; [split; [simpl; auto | reflexivity]|].
  split; [simpl; auto|]. repeat split.
Qed.

(** ** The parallel lists *)

Lemma mirror_parallel (s : ReverseDict) :
  NoDup (dict_keys (forward s)) ->
  _keys s = dict_keys (forward s) ->
  _values s = dict_values (forward s) ->
  parallel_lists s.
Proof.
  intros Hnd Hkeys Hvals. unfold parallel_lists.
  rewrite Hkeys, Hvals. unfold dict_keys, dict_values.
  split; [now rewrite !length_map|].
  intros i k v Hk Hv. rewrite nth_error_map in Hk, Hv.
  destruct (nth_error (forward s) i) as [[k0 v0]|] eqn:E; [|discriminate].
  simpl in Hk, Hv. injection Hk as <-. injection Hv as <-.
  apply In_dict_get; [assumption|]. now apply nth_error_In with (n := i).
Qed.

(** Construction establishes the invariant. *)
Lemma init_parallel (args : list (pyval * pyval)) :
  parallel_lists (__init__ args).
Proof.
  apply mirror_parallel; [apply dict_of_pairs_NoDup | reflexivity..].
Qed.

(** Assigning to a new key keeps it. *)
Lemma setitem_new_parallel (s : ReverseDict) (k v : pyval) :
  parallel_lists s -> ~ In k (_keys s) ->
  parallel_lists (__setitem__ s k v).
Proof.
  intros (Hlen & Hpar) Hnew. rewrite setitem_new by assumption.
  unfold parallel_lists; simpl. split; [rewrite !length_app; simpl; lia|].
  intros i k0 v0 Hk Hv. rewrite dict_get_set.
  destruct (Nat.lt_ge_cases i (length (_keys s))) as [Hi|Hi].
  - rewrite nth_error_app1 in Hk, Hv by lia.
    case_eqb k0 k.
    + exfalso. apply Hnew. now apply nth_error_In with (n := i).
    + now apply (Hpar i).
  - rewrite nth_error_app2 in Hk, Hv by lia.
    rewrite <- Hlen in Hv.
    destruct (i - length (_keys s)) as [|j]; simpl in Hk, Hv.
    + injection Hk as <-. injection Hv as <-. now rewrite pyval_eqb_refl.
    + destruct j; discriminate.
Qed.

(** Deleting keeps it. *)
Lemma delitem_parallel (s : ReverseDict) (k : pyval) :
  wf s -> parallel_lists s -> parallel_lists (fst (__delitem__ s k)).
Proof.
  intros Hwf (Hlen & Hpar).
  destruct (in_dec pyval_eq_dec k (_keys s)) as [Hin|Hout].
  - destruct (delitem_present s k Hwf Hin)
      as (i & d & ks & vs & _ & _ & Hks & Hvs & Heq & _ & _ & Hmem & Hget & Hl).
    rewrite Heq. unfold parallel_lists; simpl. split; [now symmetry|].
    intros j k0 v0 Hk Hv.
    assert (Hne : k0 <> k).
    { apply nth_error_In in Hk. apply Hmem in Hk. tauto. }
    rewrite Hget by assumption.
    rewrite (list_del_nth _ _ i j Hks) in Hk.
    rewrite (list_del_nth _ _ i j Hvs) in Hv.
    destruct (j <? i); [now apply (Hpar j) | now apply (Hpar (S j))].
  - rewrite delitem_absent by assumption. split; assumption.
Qed.

(** Whatever the calls, the two lists keep the same length. *)
Lemma reachable_same_length (s : ReverseDict) :
  reachable s -> length (_keys s) = length (_values s).
Proof.
  intros H. apply reachable_wf in H. destruct H as (_ & _ & H & _).
  now symmetry.
Qed.

(** C6, where the code departs from the specification: assigning to a key that is
    already present overwrites the storage and leaves [_values] alone.  The
    object built from [{a: 1}] has parallel lists; after [self[a] = 2] the
    lists are [[a]] and [[1]] while the storage holds [a: 2]. *)
Theorem setitem_present_key_breaks_parallel_lists :
  parallel_lists (__init__ [(a, one)]) /\
  _keys (__setitem__ (__init__ [(a, one)]) a two) = [a] /\
  _values (__setitem__ (__init__ [(a, one)]) a two) = [one] /\
  dict_get (forward (__setitem__ (__init__ [(a, one)]) a two)) a = Some two /\
  ~ parallel_lists (__setitem__ (__init__ [(a, one)]) a two).
Proof.
  split; [apply init_parallel|]. do 3 (split; [reflexivity|]).
  intros (_ & Hpar). specialize (Hpar 0 a one eq_refl eq_refl).
  discriminate Hpar.
Qed.

(** ** [invert] *)

Lemma forward_setitem (s : ReverseDict) (k v : pyval) :
  forward (__setitem__ s k v) = dict_set (forward s) k v.
Proof.
  unfold __setitem__. now destruct (list_contains k (_keys s)).
Qed.

Lemma forward_invert_fold (l : pydict) (acc : ReverseDict) :
  forward (fold_left (fun inverted_dict kv =>
                        __setitem__ inverted_dict (snd kv) (fst kv)) l acc)
  = fold_left (fun d kv => dict_set d (fst kv) (snd kv)) (map swap l)
              (forward acc).
Proof.
  revert acc. induction l as [|[k v] l IH]; simpl; intros acc.
  - reflexivity.
  - now rewrite IH, forward_setitem.
Qed.

Lemma forward_invert (s : ReverseDict) :
  forward (invert s) = dict_of_pairs (map swap (forward s)).
Proof. unfold invert. now rewrite forward_invert_fold. Qed.

Lemma dict_of_pairs_fresh (l : list (pyval * pyval)) :
  NoDup (map fst l) -> dict_of_pairs l = l.
Proof.
  intros H. unfold dict_of_pairs.
  rewrite fold_dict_set_fresh; [reflexivity | assumption | simpl; tauto].
Qed.

Lemma map_swap_swap (l : list (pyval * pyval)) : map swap (map swap l) = l.
Proof.
  induction l as [|[k v] l IH]; simpl; [reflexivity | now rewrite IH].
Qed.

Lemma keys_map_swap (l : pydict) : map fst (map swap l) = dict_values l.
Proof.
  induction l as [|[k v] l IH]; simpl; [reflexivity | now rewrite IH].
Qed.

(** C7.  On a map whose values are unique, inverting twice gives back the
    forward entries, in the same order even; the two dicts are then equal as
    Python compares dicts. *)
Theorem invert_invert (s : ReverseDict) :
  NoDup (dict_keys (forward s)) ->
  NoDup (dict_values (forward s)) ->
  forward (invert (invert s)) = forward s /\
  dict_eq (forward (invert (invert s))) (forward s).
Proof.
  intros Hk Hv.
  assert (H : forward (invert (invert s)) = forward s).
  { rewrite !forward_invert.
    rewrite (dict_of_pairs_fresh (map swap (forward s)))
      by (now rewrite keys_map_swap).
    rewrite map_swap_swap. now apply dict_of_pairs_fresh. }
  split; [assumption|]. intros k. now rewrite H.
Qed.

Lemma invert_invert_witness :
  NoDup (dict_keys (forward (__init__ [(a, one); (b, two)]))) /\
  NoDup (dict_values (forward (__init__ [(a, one); (b, two)]))) /\
  forward (invert (__init__ [(a, one); (b, two)])) = [(one, a); (two, b)] /\
  forward (invert (invert (__init__ [(a, one); (b, two)])))
  = forward (__init__ [(a, one); (b, two)]).
Proof.
  assert (H1 : NoDup (dict_keys (forward (__init__ [(a, one); (b, two)])))).
  { simpl. constructor; [simpl; intros [E|[]]; discriminate E|].
    constructor; [simpl; tauto | constructor]. }
  assert (H2 : NoDup (dict_values (forward (__init__ [(a, one); (b, two)])))).
  { simpl. constructor; [simpl; intros [E|[]]; discriminate E|].
    constructor; [simpl; tauto | constructor]. }
  split; [exact H1|]. split; [exact H2|]. split; [reflexivity|].
  exact (proj1 (invert_invert (__init__ [(a, one); (b, two)]) H1 H2)).
Defined.

(** C8 (as amended).  [__init__] takes [_keys] and [_values] from the storage
    once the inherited initializer has filled it, so a key supplied more than
    once appears in [_keys] exactly once: [_keys] has no duplicates and holds
    exactly the keys supplied. *)
Theorem init_keys_appear_once (args : list (pyval * pyval)) :
  _keys (__init__ args) = dict_keys (forward (__init__ args)) /\
  _values (__init__ args) = dict_values (forward (__init__ args)) /\
  NoDup (_keys (__init__ args)) /\
  (forall k, In k (_keys (__init__ args)) <-> In k (map fst args)) /\
  (forall k, In k (map fst args) ->
             count_occ pyval_eq_dec (_keys (__init__ args)) k = 1).
Proof.
  assert (Hnd : NoDup (_keys (__init__ args))) by apply dict_of_pairs_NoDup.
  assert (Hmem : forall k, In k (_keys (__init__ args)) <-> In k (map fst args)).
  { intros k. simpl. unfold dict_of_pairs. rewrite fold_dict_set_keys.
    simpl. tauto. }
  do 2 (split; [reflexivity|]). split; [assumption|]. split; [assumption|].
  intros k Hk. apply (proj1 (NoDup_count_occ' pyval_eq_dec _) Hnd).
  now apply Hmem.
Qed.

(** C8 as stated fails: built from the pairs [(a, 1), (a, 2)], the object has
    [_keys = [a]], with [a] in it once, and [_values = [2]]. *)
Lemma init_repeated_key_appears_once :
  _keys (__init__ [(a, one); (a, two)]) = [a] /\
  _values (__init__ [(a, one); (a, two)]) = [two] /\
  count_occ pyval_eq_dec (_keys (__init__ [(a, one); (a, two)])) a = 1.
Proof. repeat split. Qed.

(** C9 (as amended).  Once the inverse is built, deleting a present key
    leaves it as it was: every [v] it sent to [k] it still sends to [k].
    [self[v]] then answers [k] whenever [v] is not itself a key left in
    [_keys] (a key that is left is read from the storage first), and in
    particular whenever [self[v]] answered [k] before the deletion. *)
Theorem delitem_keeps_cached_inverse
        (s : ReverseDict) (inv : pydict) (k : pyval) :
  wf s -> _inverse s = Some inv -> In k (_keys s) ->
  let s' := fst (__delitem__ s k) in
  snd (__delitem__ s k) = Ok tt /\
  ~ In k (_keys s') /\
  inverse s' = (s', inv) /\
  forall v, dict_get inv v = Some k ->
    dict_getitem (snd (inverse s')) v = Ok k /\
    (~ In v (_keys s') -> __getitem__ s' v = (s', Ok k)) /\
    (snd (__getitem__ s v) = Ok k -> snd (__getitem__ s' v) = Ok k).
Proof.
  intros Hwf Hinv Hin s'.
  destruct (delitem_present s k Hwf Hin)
    as (i & d & ks & vs & _ & _ & _ & _ & Heq & _ & _ & Hmem & Hget & _).
  assert (Hs' : s' = {| forward := d; _keys := ks; _values := vs;
                        _inverse_items := _inverse_items s;
                        _inverse := _inverse s |})
    by (unfold s'; now rewrite Heq).
  assert (Hcache : inverse s' = (s', inv))
    by (apply inverse_built; rewrite Hs'; exact Hinv).
  assert (Hks : _keys s' = ks) by now rewrite Hs'.
  assert (Hfw : forward s' = d) by now rewrite Hs'.
  split; [now rewrite Heq|].
  split; [rewrite Hks, Hmem; tauto|].
  split; [assumption|].
  intros v Hv.
  assert (Hlook : dict_getitem inv v = Ok k)
    by (unfold dict_getitem; now rewrite Hv).
  assert (Hmiss : ~ In v (_keys s') -> __getitem__ s' v = (s', Ok k)).
  { intros Hout. rewrite getitem_miss by assumption.
    now rewrite Hcache, <- Hlook. }
  split; [now rewrite Hcache|]. split; [assumption|].
  destruct (in_dec pyval_eq_dec v (_keys s)) as [Hvin|Hvout].
  - rewrite getitem_hit by assumption. simpl. intros Hbefore.
    destruct (pyval_eq_dec v k) as [->|Hne].
    + rewrite Hmiss; [reflexivity | rewrite Hks, Hmem; tauto].
    + rewrite getitem_hit by (rewrite Hks, Hmem; tauto). simpl.
      rewrite Hfw. unfold dict_getitem in *. now rewrite Hget.
  - intros _. rewrite Hmiss; [reflexivity | rewrite Hks, Hmem; tauto].
Qed.

Lemma delitem_keeps_cached_inverse_witness :
  wf (fst (inverse (__init__ [(a, one); (b, two)]))) /\
  _inverse (fst (inverse (__init__ [(a, one); (b, two)])))
  = Some [(one, a); (two, b)] /\
  In a (_keys (fst (inverse (__init__ [(a, one); (b, two)])))) /\
  forward
    (fst (__delitem__ (fst (inverse (__init__ [(a, one); (b, two)]))) a))
  = [(b, two)] /\
  snd (__getitem__
         (fst (__delitem__ (fst (inverse (__init__ [(a, one); (b, two)]))) a))
         one) = Ok a.
Proof.
  pose proof (wf_inverse _ (wf_init [(a, one); (b, two)])) as Hwf.
  assert (Hin : In a (_keys (fst (inverse (__init__ [(a, one); (b, two)])))))
    by (simpl; auto).
  split; [exact Hwf|]. split; [reflexivity|]. split; [exact Hin|].
  split; [reflexivity|].
  destruct (delitem_keeps_cached_inverse _ _ a Hwf eq_refl Hin)
    as (_ & _ & _ & H).
  destruct (H one eq_refl) as (_ & _ & Hstill).
  apply Hstill. reflexivity.
Defined.

(** C9 as stated fails when the value is itself a key that stays: on
    [{a: b, b: c}] with the inverse built, [b] is sent to [a]; after
    [del self[a]] the inverse still sends [b] to [a], and [self[b]] answers
    [c], from the storage. *)
Lemma getitem_after_delitem_prefers_storage :
  dict_get (snd (inverse (fst (inverse (__init__ [(a, b); (b, c)]))))) b
  = Some a /\
  snd (__delitem__ (fst (inverse (__init__ [(a, b); (b, c)]))) a) = Ok tt /\
  dict_get
    (snd (inverse
            (fst (__delitem__ (fst (inverse (__init__ [(a, b); (b, c)]))) a))))
    b = Some a /\
  snd (__getitem__
         (fst (__delitem__ (fst (inverse (__init__ [(a, b); (b, c)]))) a)) b)
  = Ok c.
Proof. repeat split. Qed.

(** C10.  On an object whose inverse is not yet built, reading a key that is
    not in [_keys] builds the inverse, from the two lists as they are at that
    moment, whether the read then succeeds or raises [KeyError]; whatever is
    called afterwards, assignments included, every later [inverse] is that
    same dict. *)
Theorem getitem_miss_builds_inverse (s : ReverseDict) (k : pyval) :
  wf s -> _inverse s = None -> ~ In k (_keys s) ->
  let s' := fst (__getitem__ s k) in
  let inv := dict_of_pairs (combine (_values s) (_keys s)) in
  _inverse s' = Some inv /\
  forward s' = forward s /\ _keys s' = _keys s /\ _values s' = _values s /\
  (dict_get inv k = None ->
   __getitem__ s k = (s', Raise (KeyError k))) /\
  forall ops : list op, snd (inverse (run_ops s' ops)) = inv.
Proof.
  intros (_ & _ & _ & Hit) Hnone Hout s' inv.
  assert (Hinv : inverse s = (fst (inverse s), inv))
    by (rewrite inverse_fresh by auto; reflexivity).
  assert (Hs' : s' = fst (inverse s))
    by (unfold s'; now rewrite getitem_miss).
  destruct (inverse_frame s) as (Hf & Hk & Hv & Hi).
  rewrite Hinv in Hi. simpl in Hi.
  rewrite Hs'. do 4 (split; [assumption|]). split.
  - intros G. rewrite getitem_miss by assumption. rewrite Hinv. simpl.
    unfold dict_getitem. now rewrite G.
  - intros ops. now apply inverse_frozen.
Qed.

Lemma getitem_miss_builds_inverse_witness :
  wf (__init__ [(a, one); (b, two)]) /\
  _inverse (__init__ [(a, one); (b, two)]) = None /\
  ~ In c (_keys (__init__ [(a, one); (b, two)])) /\
  snd (__getitem__ (__init__ [(a, one); (b, two)]) c) = Raise (KeyError c) /\
  snd (inverse (run_ops (fst (__getitem__ (__init__ [(a, one); (b, two)]) c))
                        [OpSet c three]))
  = [(one, a); (two, b)].
Proof.
  pose proof (wf_init [(a, one); (b, two)]) as Hwf.
  assert (Hout : ~ In c (_keys (__init__ [(a, one); (b, two)])))
    by (simpl; intros [E|[E|[]]]; discriminate E).
  split; [exact Hwf|]. split; [reflexivity|]. split; [exact Hout|].
  destruct (getitem_miss_builds_inverse _ c Hwf eq_refl Hout)
    as (_ & _ & _ & _ & Hraise & Hfrozen).
  split.
  - rewrite (Hraise eq_refl). reflexivity.
  - exact (Hfrozen [OpSet c three]).
Defined.

(** * Further properties of the operations *)

(** ** Helper facts *)

Lemma setitem_keys_In (s : ReverseDict) (k v : pyval) :
  In k (_keys (__setitem__ s k v)).
Proof.
  destruct (in_dec pyval_eq_dec k (_keys s)) as [H|H].
  - now rewrite setitem_old.
  - rewrite setitem_new by assumption. simpl. rewrite in_app_iff. simpl. auto.
Qed.

Lemma setitem_keys_incl (s : ReverseDict) (k v x : pyval) :
  In x (_keys s) -> In x (_keys (__setitem__ s k v)).
Proof.
  intros Hx. destruct (in_dec pyval_eq_dec k (_keys s)) as [H|H].
  - now rewrite setitem_old.
  - rewrite setitem_new by assumption. simpl. rewrite in_app_iff. auto.
Qed.

Lemma dict_del_snoc (d : pydict) (k v : pyval) :
  ~ In k (dict_keys d) -> dict_del (d ++ [(k, v)]) k = Some d.
Proof.
  induction d as [|[k0 v0] d IH]; simpl; intros H.
  - now rewrite pyval_eqb_refl.
  - case_eqb k k0; [tauto|]. rewrite IH; tauto.
Qed.

Lemma list_index_snoc (k : pyval) (l : list pyval) :
  ~ In k l -> list_index k (l ++ [k]) = Some (length l).
Proof.
  induction l as [|y l IH]; simpl; intros H.
  - now rewrite pyval_eqb_refl.
  - case_eqb k y; [tauto|]. rewrite IH; tauto.
Qed.

Lemma list_del_snoc {A : Type} (l : list A) (x : A) :
  list_del (l ++ [x]) (length l) = Some l.
Proof.
  induction l as [|y l IH]; simpl; [reflexivity | now rewrite IH].
Qed.

(** ** Assignment *)

(** X1.  What is assigned is what is read back: after [self[k] = v], on any
    object, [self[k]] answers [v] and [k in self] is true, and neither read
    changes the object. *)
Theorem setitem_then_getitem (s : ReverseDict) (k v : pyval) :
  __getitem__ (__setitem__ s k v) k = (__setitem__ s k v, Ok v) /\
  __contains__ (__setitem__ s k v) k = (__setitem__ s k v, true).
Proof.
  pose proof (setitem_keys_In s k v) as Hin.
  split.
  - rewrite getitem_hit by assumption.
    rewrite forward_setitem. unfold dict_getitem.
    now rewrite dict_get_set, pyval_eqb_refl.
  - now apply contains_hit.
Qed.

(** X2.  An assignment to [k] does not change what is read under another
    key that is in [_keys]. *)
Theorem setitem_other_key_unchanged (s : ReverseDict) (k v k' : pyval) :
  In k' (_keys s) -> k' <> k ->
  snd (__getitem__ (__setitem__ s k v) k') = snd (__getitem__ s k').
Proof.
  intros Hin Hne.
  rewrite !getitem_hit by (try apply setitem_keys_incl; assumption).
  cbn [snd]. rewrite forward_setitem. unfold dict_getitem.
  rewrite dict_get_set. apply pyval_eqb_neq in Hne. now rewrite Hne.
Qed.

Lemma setitem_other_key_unchanged_witness :
  In a (_keys (__init__ [(a, one); (b, two)])) /\ a <> b /\
  snd (__getitem__ (__setitem__ (__init__ [(a, one); (b, two)]) b three) a)
  = Ok one.
Proof.
  assert (H1 : In a (_keys (__init__ [(a, one); (b, two)]))) by (simpl; auto).
  assert (H2 : a <> b) by discriminate.
  split; [exact H1|]. split; [exact H2|].
  rewrite (setitem_other_key_unchanged _ b three a H1 H2). reflexivity.
Defined.

(** X3.  Assigning to a new key and deleting that key again gives back the
    very same object: storage, both lists, iterator and cached inverse. *)
Theorem setitem_new_then_delitem (s : ReverseDict) (k v : pyval) :
  wf s -> ~ In k (_keys s) ->
  __delitem__ (__setitem__ s k v) k = (s, Ok tt).
Proof.
  intros (Hnd & Hkeys & Hlen & _) Hnew.
  rewrite setitem_new by assumption.
  unfold __delitem__. simpl.
  assert (Hc : list_contains k (_keys s ++ [k]) = true).
  { apply list_contains_In. rewrite in_app_iff. simpl. auto. }
  rewrite Hc.
  rewrite dict_set_new by (now rewrite <- Hkeys).
  rewrite dict_del_snoc by (now rewrite <- Hkeys).
  rewrite list_index_snoc by assumption.
  rewrite list_del_snoc. rewrite <- Hlen, list_del_snoc.
  now destruct s.
Qed.

Lemma setitem_new_then_delitem_witness :
  wf (__init__ [(a, one)]) /\ ~ In b (_keys (__init__ [(a, one)])) /\
  __delitem__ (__setitem__ (__init__ [(a, one)]) b two) b
  = (__init__ [(a, one)], Ok tt).
Proof.
  pose proof (wf_init [(a, one)]) as Hwf.
  assert (H : ~ In b (_keys (__init__ [(a, one)])))
    by (simpl; intros [E|[]]; discriminate E).
  split; [exact Hwf|]. split; [exact H|].
  exact (setitem_new_then_delitem _ b two Hwf H).
Defined.

(** ** Reading *)

(** X4.  Reads never touch the mapping: [self[k]], [k in self] and
    [self.inverse] leave the storage and both lists as they were, whether
    they succeed, raise, or build the inverse on the way. *)
Theorem reads_keep_mapping (s : ReverseDict) (k : pyval) :
  (forward (fst (__getitem__ s k)) = forward s /\
   _keys (fst (__getitem__ s k)) = _keys s /\
   _values (fst (__getitem__ s k)) = _values s) /\
  (forward (fst (__contains__ s k)) = forward s /\
   _keys (fst (__contains__ s k)) = _keys s /\
   _values (fst (__contains__ s k)) = _values s) /\
  (forward (fst (inverse s)) = forward s /\
   _keys (fst (inverse s)) = _keys s /\
   _values (fst (inverse s)) = _values s).
Proof.
  destruct (inverse_frame s) as (Hf & Hk & Hv & _).
  split; [|split; [|auto]].
  - destruct (getitem_state s k) as [-> | ->]; auto.
  - destruct (contains_state s k) as [-> | ->]; auto.
Qed.

(** X5.  The empty object, [ReverseDict()]: every read raises [KeyError],
    every membership test is false, every deletion raises [KeyError], and
    the inverse is the empty dict. *)
Theorem empty_object (k : pyval) :
  snd (__getitem__ (__init__ []) k) = Raise (KeyError k) /\
  snd (__contains__ (__init__ []) k) = false /\
  __delitem__ (__init__ []) k = (__init__ [], Raise (KeyError k)) /\
  snd (inverse (__init__ [])) = [] /\
  forward (invert (__init__ [])) = [].
Proof. repeat split. Qed.

(** ** Deletion *)

(** X6.  A key cannot be deleted twice: whatever the first [del self[k]]
    did, a second one raises [KeyError] and changes nothing. *)
Theorem delitem_twice (s : ReverseDict) (k : pyval) :
  wf s ->
  __delitem__ (fst (__delitem__ s k)) k
  = (fst (__delitem__ s k), Raise (KeyError k)).
Proof.
  intros Hwf. apply delitem_absent.
  destruct (in_dec pyval_eq_dec k (_keys s)) as [Hin|Hout].
  - destruct (delitem_present s k Hwf Hin)
      as (i & d & ks & vs & _ & _ & _ & _ & Heq & _ & _ & Hmem & _).
    rewrite Heq. simpl. rewrite Hmem. tauto.
  - now rewrite delitem_absent.
Qed.

Lemma delitem_twice_witness :
  wf (__init__ [(a, one); (b, two)]) /\
  snd (__delitem__ (__init__ [(a, one); (b, two)]) a) = Ok tt /\
  snd (__delitem__ (fst (__delitem__ (__init__ [(a, one); (b, two)]) a)) a)
  = Raise (KeyError a).
Proof.
  pose proof (wf_init [(a, one); (b, two)]) as Hwf.
  split; [exact Hwf|]. split; [reflexivity|].
  rewrite (delitem_twice _ a Hwf). reflexivity.
Defined.

Lemma filter_absent (k : pyval) (l : list pyval) :
  ~ In k l -> filter (fun x => negb (pyval_eqb x k)) l = l.
Proof.
  induction l as [|y l IH]; simpl; intros H; [reflexivity|].
  case_eqb y k; simpl; [tauto | rewrite IH; tauto].
Qed.

Lemma list_del_filter (k : pyval) (l r : list pyval) (i : nat) :
  NoDup l -> list_index k l = Some i -> list_del l i = Some r ->
  r = filter (fun x => negb (pyval_eqb x k)) l.
Proof.
  revert r i. induction l as [|y l IH]; simpl; intros r i Hnd; [discriminate|].
  inversion Hnd as [|? ? Hy Hnd']; subst.
  destruct (pyval_eqb k y) eqn:E.
  - apply pyval_eqb_eq in E. subst y. intros [= <-] [= <-].
    rewrite pyval_eqb_refl. simpl. now rewrite filter_absent.
  - apply pyval_eqb_neq in E.
    destruct (list_index k l) as [j|] eqn:Hj; [|discriminate].
    intros [= <-]. destruct (list_del l j) as [r'|] eqn:Hr; [|discriminate].
    intros [= <-].
    case_eqb y k; [congruence|]. simpl. f_equal. now apply (IH r' j).
Qed.

(** X7.  Deletion keeps the insertion order of what is left: on a
    well-formed object, [_keys] after [del self[k]] is [_keys] before with
    [k] filtered out, whether the deletion succeeded or raised. *)
Theorem delitem_keeps_order (s : ReverseDict) (k : pyval) :
  wf s ->
  _keys (fst (__delitem__ s k))
  = filter (fun x => negb (pyval_eqb x k)) (_keys s) /\
  dict_keys (forward (fst (__delitem__ s k)))
  = filter (fun x => negb (pyval_eqb x k)) (dict_keys (forward s)).
Proof.
  intros Hwf.
  assert (Hwf' : wf (fst (__delitem__ s k))) by now apply wf_delitem.
  destruct Hwf' as (_ & Hkeys' & _).
  pose proof Hwf as (Hnd & Hkeys & _).
  rewrite <- Hkeys', <- Hkeys.
  assert (H : _keys (fst (__delitem__ s k))
              = filter (fun x => negb (pyval_eqb x k)) (_keys s)).
  { destruct (in_dec pyval_eq_dec k (_keys s)) as [Hin|Hout].
    - destruct (delitem_present s k Hwf Hin)
        as (i & d & ks & vs & Hi & _ & Hks & _ & Heq & _).
      rewrite Heq. simpl.
      apply (list_del_filter k (_keys s) ks i); [now rewrite Hkeys | auto..].
    - rewrite delitem_absent by assumption. simpl.
      now rewrite filter_absent. }
  split; assumption.
Qed.

Lemma delitem_keeps_order_witness :
  wf (__init__ [(a, one); (b, two); (c, three)]) /\
  _keys (fst (__delitem__ (__init__ [(a, one); (b, two); (c, three)]) b))
  = [a; c].
Proof.
  pose proof (wf_init [(a, one); (b, two); (c, three)]) as Hwf.
  split; [exact Hwf|].
  rewrite (proj1 (delitem_keeps_order _ b Hwf)). reflexivity.
Defined.

(** X8.  Deleting [k] does not change what is read under another key that
    is in [_keys]. *)
Theorem delitem_other_key_unchanged (s : ReverseDict) (k k' : pyval) :
  wf s -> In k' (_keys s) -> k' <> k ->
  snd (__getitem__ (fst (__delitem__ s k)) k') = snd (__getitem__ s k').
Proof.
  intros Hwf Hin' Hne.
  destruct (in_dec pyval_eq_dec k (_keys s)) as [Hin|Hout].
  - destruct (delitem_present s k Hwf Hin)
      as (i & d & ks & vs & _ & _ & _ & _ & Heq & _ & _ & Hmem & Hget & _).
    rewrite Heq. cbn [fst].
    rewrite (getitem_hit s k') by assumption.
    rewrite getitem_hit by (simpl; apply Hmem; auto).
    cbn [snd forward]. unfold dict_getitem. now rewrite Hget.
  - now rewrite delitem_absent.
Qed.

Lemma delitem_other_key_unchanged_witness :
  wf (__init__ [(a, one); (b, two)]) /\
  In b (_keys (__init__ [(a, one); (b, two)])) /\ b <> a /\
  snd (__getitem__ (fst (__delitem__ (__init__ [(a, one); (b, two)]) a)) b)
  = Ok two.
Proof.
  pose proof (wf_init [(a, one); (b, two)]) as Hwf.
  assert (H1 : In b (_keys (__init__ [(a, one); (b, two)])))
    by (simpl; auto).
  assert (H2 : b <> a) by discriminate.
  split; [exact Hwf|]. split; [exact H1|]. split; [exact H2|].
  rewrite (delitem_other_key_unchanged _ a b Hwf H1 H2). reflexivity.
Defined.

(** ** Collisions: the last one wins *)

Lemma fold_dict_set_get_other (l : list (pyval * pyval)) (acc : pydict)
      (x : pyval) :
  ~ In x (map fst l) ->
  dict_get (fold_left (fun d kv => dict_set d (fst kv) (snd kv)) l acc) x
  = dict_get acc x.
Proof.
  revert acc. induction l as [|[k v] l IH]; simpl; intros acc H.
  - reflexivity.
  - rewrite IH by tauto. rewrite dict_get_set.
    case_eqb x k; [tauto | reflexivity].
Qed.

Lemma dict_of_pairs_last (l1 l2 : list (pyval * pyval)) (x y : pyval) :
  ~ In x (map fst l2) ->
  dict_get (dict_of_pairs (l1 ++ (x, y) :: l2)) x = Some y.
Proof.
  intros H. unfold dict_of_pairs. rewrite fold_left_app. simpl.
  rewrite fold_dict_set_get_other by assumption.
  now rewrite dict_get_set, pyval_eqb_refl.
Qed.

Lemma combine_app_same (l1 l1' l2 l2' : list pyval) :
  length l1 = length l2 ->
  combine (l1 ++ l1') (l2 ++ l2') = combine l1 l2 ++ combine l1' l2'.
Proof.
  revert l2. induction l1 as [|x l1 IH]; intros [|y l2]; simpl;
    try discriminate; intros H.
  - reflexivity.
  - rewrite IH; [reflexivity | lia].
Qed.

Lemma combine_fst_In (l1 l2 : list pyval) (x : pyval) :
  In x (map fst (combine l1 l2)) -> In x l1.
Proof.
  revert l2. induction l1 as [|x1 l1 IH]; intros [|y l2]; simpl; try tauto.
  intros [H|H]; [now left | right; now apply (IH l2)].
Qed.

(** X9.  When the initializer is given the same key more than once, the
    last pair wins: the object reads back, under that key, the value of
    the last pair that has it. *)
Theorem init_last_pair_wins (l1 l2 : list (pyval * pyval)) (k v : pyval) :
  ~ In k (map fst l2) ->
  __getitem__ (__init__ (l1 ++ (k, v) :: l2)) k
  = (__init__ (l1 ++ (k, v) :: l2), Ok v).
Proof.
  intros H. rewrite getitem_hit.
  - unfold dict_getitem. simpl. now rewrite dict_of_pairs_last.
  - simpl. unfold dict_of_pairs. apply fold_dict_set_keys. right.
    rewrite map_app, in_app_iff. simpl. auto.
Qed.

Lemma init_last_pair_wins_witness :
  ~ In a (map fst [(b, three)]) /\
  snd (__getitem__ (__init__ ([(a, one)] ++ (a, two) :: [(b, three)])) a)
  = Ok two.
Proof.
  assert (H : ~ In a (map fst [(b, three)]))
    by (simpl; intros [E|[]]; discriminate E).
  split; [exact H|].
  rewrite (init_last_pair_wins [(a, one)] [(b, three)] a two H). reflexivity.
Defined.

(** X10.  When several keys hold the same value at the moment the inverse
    is built, the inverse answers the one that stands last in [_keys]: the
    key at the last position of the value in [_values]. *)
Theorem inverse_last_position_wins
        (s : ReverseDict) (vs1 vs2 ks1 ks2 : list pyval) (k v : pyval) :
  wf s -> _inverse s = None ->
  _values s = vs1 ++ v :: vs2 ->
  _keys s = ks1 ++ k :: ks2 ->
  length vs1 = length ks1 ->
  ~ In v vs2 ->
  dict_getitem (snd (inverse s)) v = Ok k.
Proof.
  intros (_ & _ & _ & Hit) Hnone Hvs Hks Hlen Hlast.
  rewrite inverse_fresh by auto. simpl.
  rewrite Hvs, Hks, combine_app_same by assumption. simpl.
  unfold dict_getitem. rewrite dict_of_pairs_last; [reflexivity|].
  intros H. apply combine_fst_In in H. contradiction.
Qed.

Lemma inverse_last_position_wins_witness :
  wf (__init__ [(a, one); (b, one); (c, two)]) /\
  _inverse (__init__ [(a, one); (b, one); (c, two)]) = None /\
  dict_getitem (snd (inverse (__init__ [(a, one); (b, one); (c, two)]))) one
  = Ok b.
Proof.
  pose proof (wf_init [(a, one); (b, one); (c, two)]) as Hwf.
  split; [exact Hwf|]. split; [reflexivity|].
  apply (inverse_last_position_wins _ [one] [two] [a] [c] b one Hwf);
    try reflexivity.
  simpl. intros [E|[]]. discriminate E.
Defined.

(** X11.  The invariant of every object a client can obtain, by whatever
    sequence of calls: [_keys] has no duplicates and lists the keys of the
    storage in their order, [_values] is as long as [_keys], and every key
    listed can be read from the storage. *)
Theorem reachable_invariant (s : ReverseDict) :
  reachable s ->
  NoDup (_keys s) /\
  _keys s = dict_keys (forward s) /\
  length (_values s) = length (_keys s) /\
  (forall k, In k (_keys s) ->
             exists v, __getitem__ s k = (s, Ok v) /\
                       dict_get (forward s) k = Some v).
Proof.
  intros H. apply reachable_wf in H.
  pose proof H as (Hnd & Hkeys & Hlen & _).
  split; [now rewrite Hkeys|]. do 2 (split; [assumption|]).
  intros k Hin. rewrite getitem_hit by assumption.
  destruct (dict_get (forward s) k) as [v|] eqn:G.
  - exists v. unfold dict_getitem. now rewrite G.
  - apply dict_get_None in G. rewrite <- Hkeys in G. contradiction.
Qed.

Lemma reachable_invariant_witness :
  reachable (run_op (run_op (run_op (__init__ [(a, one); (b, two)])
                                    (OpSet a three)) (OpGet three)) (OpDel b)) /\
  _keys (run_op (run_op (run_op (__init__ [(a, one); (b, two)])
                                (OpSet a three)) (OpGet three)) (OpDel b))
  = dict_keys
      (forward (run_op (run_op (run_op (__init__ [(a, one); (b, two)])
                                       (OpSet a three)) (OpGet three))
                       (OpDel b))).
Proof.
  assert (H : reachable
                (run_op (run_op (run_op (__init__ [(a, one); (b, two)])
                                        (OpSet a three)) (OpGet three))
                        (OpDel b)))
    by (do 3 apply reach_op; apply reach_init).
  split; [exact H|].
  exact (proj1 (proj2 (reachable_invariant _ H))).
Defined.

(** ** The inverse of a one-to-one mapping *)

Lemma dict_get_In (d : pydict) (k v : pyval) :
  dict_get d k = Some v -> In (k, v) d.
Proof.
  induction d as [|[k' v'] d IH]; simpl; [discriminate|].
  case_eqb k k'.
  - intros [= ->]. now left.
  - auto.
Qed.

Lemma values_map_swap (l : pydict) : map snd (map swap l) = dict_keys l.
Proof.
  induction l as [|[k v] l IH]; simpl; [reflexivity | now rewrite IH].
Qed.

Lemma In_map_swap (l : pydict) (k v : pyval) :
  In (v, k) (map swap l) <-> In (k, v) l.
Proof.
  rewrite in_map_iff. split.
  - intros ([k0 v0] & E & H). unfold swap in E. simpl in E.
    now injection E as -> ->.
  - intros H. exists (k, v). split; [reflexivity | assumption].
Qed.

(** X12.  On an object whose inverse is not yet built, whose [_values]
    mirror the storage and whose values are all different, the inverse is
    the mapping turned around, exactly: it sends [v] to [k] if and only if
    [k: v] is stored.  So a stored value that is not itself a key reads back,
    through [self[v]], as its key. *)
Theorem inverse_of_one_to_one (s : ReverseDict) :
  wf s -> _inverse s = None ->
  _values s = dict_values (forward s) ->
  NoDup (dict_values (forward s)) ->
  snd (inverse s) = map swap (forward s) /\
  (forall k v, dict_get (snd (inverse s)) v = Some k <->
               dict_get (forward s) k = Some v) /\
  (forall k v, dict_get (forward s) k = Some v -> ~ In v (_keys s) ->
               snd (__getitem__ s v) = Ok k).
Proof.
  intros Hwf Hnone Hvals Hinj.
  pose proof Hwf as (Hnd & Hkeys & _ & Hit).
  assert (Hinv : snd (inverse s) = map swap (forward s)).
  { rewrite inverse_fresh by auto. simpl.
    rewrite Hkeys, Hvals, combine_values_keys.
    apply dict_of_pairs_fresh. now rewrite keys_map_swap. }
  assert (Hiff : forall k v, dict_get (snd (inverse s)) v = Some k <->
                             dict_get (forward s) k = Some v).
  { intros k v. split.
    - now apply inverse_entry_original.
    - intros G. rewrite Hinv. apply In_dict_get.
      + unfold dict_keys. now rewrite keys_map_swap.
      + apply In_map_swap. now apply dict_get_In. }
  split; [assumption|]. split; [assumption|].
  intros k v G Hout. rewrite getitem_miss by assumption. simpl.
  unfold dict_getitem. now rewrite (proj2 (Hiff k v) G).
Qed.

Lemma inverse_of_one_to_one_witness :
  wf (__init__ [(a, one); (b, two)]) /\
  NoDup (dict_values (forward (__init__ [(a, one); (b, two)]))) /\
  snd (inverse (__init__ [(a, one); (b, two)])) = [(one, a); (two, b)] /\
  snd (__getitem__ (__init__ [(a, one); (b, two)]) two) = Ok b.
Proof.
  pose proof (wf_init [(a, one); (b, two)]) as Hwf.
  assert (H : NoDup (dict_values (forward (__init__ [(a, one); (b, two)])))).
  { simpl. constructor; [simpl; intros [E|[]]; discriminate E|].
    constructor; [simpl; tauto | constructor]. }
  split; [exact Hwf|]. split; [exact H|].
  destruct (inverse_of_one_to_one _ Hwf eq_refl eq_refl H) as (H1 & _ & H3).
  split; [exact H1|].
  apply H3; [reflexivity|]. simpl. intros [E|[E|[]]]; discriminate E.
Defined.

(** ** [invert] *)

Lemma invert_set_all (s : ReverseDict) :
  invert s = set_all (__init__ []) (map swap (forward s)).
Proof.
  unfold invert, set_all. generalize (__init__ []).
  induction (forward s) as [|[k v] l IH]; simpl; intros acc.
  - reflexivity.
  - now rewrite IH.
Qed.

Lemma set_all_wf (news : list (pyval * pyval)) (s : ReverseDict) :
  wf s -> wf (set_all s news).
Proof.
  revert s. induction news as [|[k v] news IH]; simpl; intros s H.
  - assumption.
  - apply IH. now apply wf_setitem.
Qed.

Lemma set_all_inverse (news : list (pyval * pyval)) (s : ReverseDict) :
  _inverse (set_all s news) = _inverse s /\
  _inverse_items (set_all s news) = _inverse_items s.
Proof.
  revert s. induction news as [|[k v] news IH]; simpl; intros s.
  - auto.
  - destruct (IH (__setitem__ s k v)) as (-> & ->). apply setitem_inverse.
Qed.

(** X13.  [invert] always returns a fresh, well-formed object, with no
    inverse built, whatever the state of [self]: its storage is the dict of
    the stored pairs turned around, in their order, and its keys are exactly
    the values stored in [self]. *)
Theorem invert_fresh_object (s : ReverseDict) :
  wf (invert s) /\
  _inverse (invert s) = None /\
  _inverse_items (invert s) = Some 0 /\
  forward (invert s) = dict_of_pairs (map swap (forward s)) /\
  (forall v, In v (_keys (invert s)) <-> In v (dict_values (forward s))).
Proof.
  assert (Hwf : wf (invert s)).
  { rewrite invert_set_all. apply set_all_wf, wf_init. }
  split; [assumption|].
  split; [rewrite invert_set_all; apply set_all_inverse|].
  split; [rewrite invert_set_all; apply set_all_inverse|].
  split; [apply forward_invert|].
  intros v. destruct Hwf as (_ & -> & _).
  rewrite forward_invert. unfold dict_of_pairs.
  rewrite fold_dict_set_keys, keys_map_swap. simpl. tauto.
Qed.

(** X14.  On a mapping whose values are all different, [invert] gives the
    object one would build from the pairs turned around: its storage and
    both lists are those of [self] with keys and values exchanged.  Every
    stored pair [k: v] then reads back as [v: k], and the lazy inverse of the
    inverted object is the storage of [self]. *)
Theorem invert_of_one_to_one (s : ReverseDict) :
  NoDup (dict_keys (forward s)) ->
  NoDup (dict_values (forward s)) ->
  invert s =
  {| forward := map swap (forward s);
     _keys := dict_values (forward s);
     _values := dict_keys (forward s);
     _inverse_items := Some 0;
     _inverse := None |} /\
  (forall k v, dict_get (forward s) k = Some v ->
               __getitem__ (invert s) v = (invert s, Ok k)) /\
  snd (inverse (invert s)) = forward s.
Proof.
  intros Hk Hv.
  assert (Heq : invert s =
    {| forward := map swap (forward s);
       _keys := dict_values (forward s);
       _values := dict_keys (forward s);
       _inverse_items := Some 0;
       _inverse := None |}).
  { rewrite invert_set_all, set_all_fresh.
    - simpl. now rewrite keys_map_swap, values_map_swap.
    - reflexivity.
    - now rewrite keys_map_swap.
    - simpl. tauto. }
  split; [assumption|]. split.
  - intros k v G. apply dict_get_In in G.
    assert (Hin : In v (_keys (invert s))).
    { rewrite Heq. simpl. unfold dict_values.
      change v with (snd (k, v)). now apply in_map. }
    rewrite getitem_hit by assumption.
    f_equal. unfold dict_getitem. rewrite Heq at 1. simpl.
    rewrite (In_dict_get (map swap (forward s)) v k); [reflexivity | |].
    + unfold dict_keys. now rewrite keys_map_swap.
    + now apply In_map_swap.
  - rewrite Heq, inverse_fresh by reflexivity. simpl.
    replace (combine (dict_keys (forward s)) (dict_values (forward s)))
      with (map swap (map swap (forward s))).
    + rewrite map_swap_swap. now apply dict_of_pairs_fresh.
    + rewrite <- combine_values_keys.
      unfold dict_values, dict_keys.
      now rewrite keys_map_swap, values_map_swap.
Qed.

Lemma invert_of_one_to_one_witness :
  NoDup (dict_keys (forward (__init__ [(a, one); (b, two)]))) /\
  NoDup (dict_values (forward (__init__ [(a, one); (b, two)]))) /\
  snd (__getitem__ (invert (__init__ [(a, one); (b, two)])) two) = Ok b /\
  snd (inverse (invert (__init__ [(a, one); (b, two)])))
  = [(a, one); (b, two)].
Proof.
  assert (H1 : NoDup (dict_keys (forward (__init__ [(a, one); (b, two)])))).
  { simpl. constructor; [simpl; intros [E|[]]; discriminate E|].
    constructor; [simpl; tauto | constructor]. }
  assert (H2 : NoDup (dict_values (forward (__init__ [(a, one); (b, two)])))).
  { simpl. constructor; [simpl; intros [E|[]]; discriminate E|].
    constructor; [simpl; tauto | constructor]. }
  split; [exact H1|]. split; [exact H2|].
  destruct (invert_of_one_to_one _ H1 H2) as (_ & Hget & Hinv).
  split; [|exact Hinv].
  rewrite (Hget b two eq_refl). reflexivity.
Defined.

(** X15.  The lazy inverse and [invert] agree: on an object whose inverse
    is not yet built and whose [_values] mirror the storage, the dict that
    [inverse] builds is the storage of [invert()], collisions included. *)
Theorem invert_agrees_with_inverse (s : ReverseDict) :
  wf s -> _inverse s = None -> _values s = dict_values (forward s) ->
  forward (invert s) = snd (inverse s).
Proof.
  intros (_ & Hkeys & _ & Hit) Hnone Hvals.
  rewrite forward_invert, inverse_fresh by auto. simpl.
  now rewrite Hkeys, Hvals, combine_values_keys.
Qed.

Lemma invert_agrees_with_inverse_witness :
  wf (__init__ [(a, one); (b, one); (c, two)]) /\
  forward (invert (__init__ [(a, one); (b, one); (c, two)]))
  = snd (inverse (__init__ [(a, one); (b, one); (c, two)])) /\
  snd (inverse (__init__ [(a, one); (b, one); (c, two)]))
  = [(one, b); (two, c)].
Proof.
  pose proof (wf_init [(a, one); (b, one); (c, two)]) as Hwf.
  split; [exact Hwf|]. split; [|reflexivity].
  exact (invert_agrees_with_inverse _ Hwf eq_refl eq_refl).
Defined.

(** ** Membership and lookup together *)

(** X16.  [k in self] says whether [self[k]] answers: on a well-formed
    object the test is true exactly when the read does not raise, and both
    leave the object in the same state. *)
Theorem contains_iff_getitem (s : ReverseDict) (k : pyval) :
  wf s ->
  fst (__contains__ s k) = fst (__getitem__ s k) /\
  (snd (__contains__ s k) = true <-> exists r, snd (__getitem__ s k) = Ok r).
Proof.
  intros (_ & Hkeys & _).
  destruct (in_dec pyval_eq_dec k (_keys s)) as [Hin|Hout].
  - rewrite contains_hit, getitem_hit by assumption. simpl.
    split; [reflexivity|]. split; [intros _ | reflexivity].
    unfold dict_getitem. destruct (dict_get (forward s) k) as [v|] eqn:G.
    + now exists v.
    + apply dict_get_None in G. rewrite <- Hkeys in G. contradiction.
  - rewrite contains_miss, getitem_miss by assumption. simpl.
    split; [reflexivity|]. unfold dict_contains, dict_getitem.
    destruct (dict_get (snd (inverse s)) k) as [v|].
    + split; [intros _; now exists v | reflexivity].
    + split; [discriminate | intros (r & Hr); discriminate Hr].
Qed.

Lemma contains_iff_getitem_witness :
  wf (__init__ [(a, one)]) /\
  (snd (__contains__ (__init__ [(a, one)]) one) = true <->
   exists r, snd (__getitem__ (__init__ [(a, one)]) one) = Ok r) /\
  snd (__contains__ (__init__ [(a, one)]) one) = true.
Proof.
  pose proof (wf_init [(a, one)]) as Hwf.
  split; [exact Hwf|]. split; [|reflexivity].
  exact (proj2 (contains_iff_getitem _ one Hwf)).
Defined.

(** X17.  Once the inverse is built, a value assigned afterwards cannot be
    looked up: if [v] is neither a key nor in the cached inverse, then after
    [self[k] = v] the pair is stored, yet [self[v]] raises [KeyError] and
    [v in self] is false. *)
Theorem later_value_not_found (s : ReverseDict) (inv : pydict) (k v : pyval) :
  _inverse s = Some inv -> dict_get inv v = None ->
  ~ In v (_keys s) -> v <> k ->
  dict_get (forward (__setitem__ s k v)) k = Some v /\
  snd (__getitem__ (__setitem__ s k v) v) = Raise (KeyError v) /\
  snd (__contains__ (__setitem__ s k v) v) = false.
Proof.
  intros Hinv Hv Hout Hne.
  assert (Hout' : ~ In v (_keys (__setitem__ s k v))).
  { destruct (in_dec pyval_eq_dec k (_keys s)) as [H|H].
    - now rewrite setitem_old.
    - rewrite setitem_new by assumption. simpl. rewrite in_app_iff. simpl.
      intros [H1|[H1|[]]]; [tauto | congruence]. }
  assert (Hcache : inverse (__setitem__ s k v) = (__setitem__ s k v, inv)).
  { apply inverse_built. now rewrite (proj1 (setitem_inverse s k v)). }
  split; [rewrite forward_setitem; now rewrite dict_get_set, pyval_eqb_refl|].
  rewrite getitem_miss, contains_miss by assumption.
  rewrite Hcache. simpl. unfold dict_getitem, dict_contains.
  now rewrite Hv.
Qed.

Lemma later_value_not_found_witness :
  _inverse (fst (inverse (__init__ [(a, one); (b, two)])))
  = Some [(one, a); (two, b)] /\
  snd (__getitem__
         (__setitem__ (fst (inverse (__init__ [(a, one); (b, two)]))) c three)
         three) = Raise (KeyError three) /\
  snd (__contains__
         (__setitem__ (fst (inverse (__init__ [(a, one); (b, two)]))) c three)
         three) = false.
Proof.
  split; [reflexivity|].
  refine (proj2 (later_value_not_found
                   (fst (inverse (__init__ [(a, one); (b, two)])))
                   [(one, a); (two, b)] c three eq_refl eq_refl _ _)).
  - simpl. intros [E|[E|[]]]; discriminate E.
  - discriminate.
Defined.

(** ** The parallel lists, again *)

Lemma reads_frame (s : ReverseDict) :
  forward (fst (inverse s)) = forward s /\
  _keys (fst (inverse s)) = _keys s /\
  _values (fst (inverse s)) = _values s.
Proof.
  destruct (inverse_frame s) as (Hf & Hk & Hv & _). auto.
Qed.

Lemma parallel_lists_ext (s s' : ReverseDict) :
  forward s' = forward s -> _keys s' = _keys s -> _values s' = _values s ->
  parallel_lists s -> parallel_lists s'.
Proof.
  unfold parallel_lists. intros -> -> ->. auto.
Qed.

(** X18.  The two lists stay parallel (equal length, and position by
    position the value stored under the key) through every call except an
    assignment to a key that is already present: deletions, reads,
    membership tests, accesses to the inverse and assignments to new
    keys all keep it. *)
Theorem parallel_lists_kept (s : ReverseDict) (o : op) :
  wf s -> parallel_lists s ->
  (forall k v, o = OpSet k v -> ~ In k (_keys s)) ->
  parallel_lists (run_op s o).
Proof.
  intros Hwf Hpar Hnew.
  destruct (reads_frame s) as (Hf & Hk & Hv).
  destruct o as [k v|k|k|k|]; cbn [run_op].
  - apply setitem_new_parallel; [assumption | now apply (Hnew k v)].
  - now apply delitem_parallel.
  - destruct (getitem_state s k) as [-> | ->];
      [assumption | now apply (parallel_lists_ext s)].
  - destruct (contains_state s k) as [-> | ->];
      [assumption | now apply (parallel_lists_ext s)].
  - now apply (parallel_lists_ext s).
Qed.

Lemma parallel_lists_kept_witness :
  wf (__init__ [(a, one); (b, two)]) /\
  parallel_lists (__init__ [(a, one); (b, two)]) /\
  parallel_lists (run_op (__init__ [(a, one); (b, two)]) (OpSet c three)) /\
  parallel_lists (run_op (__init__ [(a, one); (b, two)]) (OpDel a)).
Proof.
  pose proof (wf_init [(a, one); (b, two)]) as Hwf.
  pose proof (init_parallel [(a, one); (b, two)]) as Hpar.
  split; [exact Hwf|]. split; [exact Hpar|]. split.
  - apply (parallel_lists_kept _ (OpSet c three) Hwf Hpar).
    intros k v [= <- <-]. simpl. intros [E|[E|[]]]; discriminate E.
  - apply (parallel_lists_kept _ (OpDel a) Hwf Hpar).
    intros k v E. discriminate E.
Defined.
